(** * pytest-vts: the cassette recorder ([pytest_vts/vts/__init__.py])

    A shallow embedding of the [Recorder] class together with the parts of
    its collaborators that its behaviour depends on:

    - the [json] codec ([json.dumps] / [json.loads]),
    - [requests.structures.CaseInsensitiveDict] (response headers),
    - the [responses.RequestsMock] interception layer,
    - the cassette file on disk.

    Python objects that end up in a cassette are JSON values, so tracks are
    modelled as values of the type [json] below; a Python [dict] is an
    association list in insertion order with unique keys. *)

From Stdlib Require Import String Ascii List Bool Arith ZArith NArith Lia.
From Stdlib Require Import DecimalString DecimalPos DecimalN DecimalZ DecimalFacts.
Import ListNotations.

Local Open Scope list_scope.
Local Open Scope string_scope.

(* ================================================================== *)
(** * Part I. Definitions *)
(* ================================================================== *)

(** ** Text helpers *)

Definition dquote : ascii := "034"%char.
Definition backslash : ascii := "\"%char.

Definition is_digit (c : ascii) : bool :=
  let n := N_of_ascii c in ((48 <=? n) && (n <=? 57))%N.

(** The whitespace the json decoder skips: space, tab, line feed, carriage
    return. *)
Definition is_ws (c : ascii) : bool :=
  let n := N_of_ascii c in
  ((n =? 32) || (n =? 9) || (n =? 10) || (n =? 13))%N.

Fixpoint skip_ws (s : string) : string :=
  match s with
  | String c r => if is_ws c then skip_ws r else s
  | EmptyString => EmptyString
  end.

(** [strip_prefix p s] is [Some r] when [s = p ++ r]. *)
Fixpoint strip_prefix (p s : string) : option string :=
  match p with
  | EmptyString => Some s
  | String a p' =>
      match s with
      | String b s' => if Ascii.eqb a b then strip_prefix p' s' else None
      | EmptyString => None
      end
  end.

Definition startswith (p s : string) : bool :=
  match strip_prefix p s with Some _ => true | None => false end.

(** Python's [x in s] on strings: [x] occurs somewhere in [s]. *)
Fixpoint contains (x s : string) : bool :=
  startswith x s ||
  match s with
  | String _ r => contains x r
  | EmptyString => false
  end.

(** [str.lower] on ASCII letters. *)
Definition lower_char (c : ascii) : ascii :=
  let n := N_of_ascii c in
  if ((65 <=? n) && (n <=? 90))%N then ascii_of_N (n + 32) else c.

Fixpoint lower (s : string) : string :=
  match s with
  | String c r => String (lower_char c) (lower r)
  | EmptyString => EmptyString
  end.

(** [s.replace(a, b)] for single characters. *)
Fixpoint replace_char (a b : ascii) (s : string) : string :=
  match s with
  | String c r => String (if Ascii.eqb c a then b else c) (replace_char a b r)
  | EmptyString => EmptyString
  end.

(** [s.split(sep, 1)[0]]: the part of [s] before the first [sep]. *)
Fixpoint before_char (sep : ascii) (s : string) : string :=
  match s with
  | String c r => if Ascii.eqb c sep then EmptyString else String c (before_char sep r)
  | EmptyString => EmptyString
  end.

(** ** Python values that can live in a cassette *)

Module Json.

(** Numbers are integers: float literals are outside the model (the decoder
    below rejects a fraction or an exponent).  Text is a string over the code
    points 0..255.  The members of an object are kept in insertion order,
    which is also the order [dumps] writes them in. *)
#[warnings="-register-all"]
Inductive json : Type :=
| JNull
| JBool (b : bool)
| JInt (z : Z)
| JStr (s : string)
| JArr (l : list json)
| JObj (m : list (string * json)).

(** *** dict operations on association lists *)

Fixpoint dict_get {A} (k : string) (m : list (string * A)) : option A :=
  match m with
  | [] => None
  | (k', v) :: m' => if String.eqb k k' then Some v else dict_get k m'
  end.

(** [d[k] = v]: overwrite in place when the key exists, append otherwise. *)
Fixpoint dict_set {A} (k : string) (v : A) (m : list (string * A)) : list (string * A) :=
  match m with
  | [] => [(k, v)]
  | (k', v') :: m' =>
      if String.eqb k k' then (k, v) :: m' else (k', v') :: dict_set k v m'
  end.

(** [dict(items)]. *)
Definition dict_of_items {A} (items : list (string * A)) : list (string * A) :=
  fold_left (fun d kv => dict_set (fst kv) (snd kv) d) items [].

(** A Python dict never holds a key twice. *)
Fixpoint wf (v : json) : Prop :=
  match v with
  | JArr l => (fix all (l : list json) : Prop :=
                 match l with [] => True | x :: l' => wf x /\ all l' end) l
  | JObj m => NoDup (map fst m) /\
              (fix all (m : list (string * json)) : Prop :=
                 match m with [] => True | kv :: m' => wf (snd kv) /\ all m' end) m
  | _ => True
  end.

(** *** [json.dumps] (default options: [ensure_ascii], separators [", "] and
    [": "]) *)

Definition hex_char (n : N) : ascii :=
  if (n <? 10)%N then ascii_of_N (48 + n) else ascii_of_N (87 + n).

(** [encode_basestring_ascii]: short escapes for the quote, the backslash and
    the five named control characters, [\u00XX] for everything else outside
    the printable ASCII range. *)
Definition escape_char (c : ascii) : string :=
  let n := N_of_ascii c in
  if (n =? 34)%N then String backslash (String dquote "")
  else if (n =? 92)%N then String backslash (String backslash "")
  else if (n =? 8)%N then String backslash "b"
  else if (n =? 12)%N then String backslash "f"
  else if (n =? 10)%N then String backslash "n"
  else if (n =? 13)%N then String backslash "r"
  else if (n =? 9)%N then String backslash "t"
  else if ((n <? 32) || (126 <? n))%N then
    String backslash
      (String "u" (String "0" (String "0"
         (String (hex_char (n / 16)) (String (hex_char (n mod 16)) "")))))
  else String c "".

Fixpoint escape (s : string) : string :=
  match s with
  | String c r => escape_char c ++ escape r
  | EmptyString => EmptyString
  end.

Definition quote (s : string) : string :=
  String dquote (escape s ++ String dquote "").

Definition dumps_int (z : Z) : string :=
  match z with
  | Z0 => "0"
  | Zpos p => NilEmpty.string_of_uint (Pos.to_uint p)
  | Zneg p => String "-" (NilEmpty.string_of_uint (Pos.to_uint p))
  end.

(** [", ".join(parts)] *)
Fixpoint join_items (parts : list string) : string :=
  match parts with
  | [] => ""
  | [x] => x
  | x :: rest => x ++ ", " ++ join_items rest
  end.

Fixpoint dumps (v : json) : string :=
  match v with
  | JNull => "null"
  | JBool true => "true"
  | JBool false => "false"
  | JInt z => dumps_int z
  | JStr s => quote s
  | JArr l => "[" ++ join_items (map dumps l) ++ "]"
  | JObj m =>
      "{" ++ join_items (map (fun kv => (quote (fst kv) ++ ": " ++ dumps (snd kv))%string) m)
          ++ "}"
  end.

(** *** [json.loads] *)

Definition hex_val (c : ascii) : option N :=
  let n := N_of_ascii c in
  if ((48 <=? n) && (n <=? 57))%N then Some (n - 48)%N
  else if ((97 <=? n) && (n <=? 102))%N then Some (n - 87)%N
  else if ((65 <=? n) && (n <=? 70))%N then Some (n - 55)%N
  else None.

(** The four hex digits of a [\uXXXX] escape; code points above 255 are
    outside the modelled alphabet. *)
Definition code_point (h1 h2 h3 h4 : ascii) : option ascii :=
  match hex_val h1, hex_val h2, hex_val h3, hex_val h4 with
  | Some a, Some b, Some c, Some d =>
      let n := (((a * 16 + b) * 16 + c) * 16 + d)%N in
      if (n <? 256)%N then Some (ascii_of_N n) else None
  | _, _, _, _ => None
  end.

(** The [BACKSLASH] table of the decoder. *)
Definition unescape (e : ascii) : option ascii :=
  let n := N_of_ascii e in
  if (n =? 34)%N then Some dquote
  else if (n =? 92)%N then Some backslash
  else if (n =? 47)%N then Some "/"%char
  else if (n =? 98)%N then Some (ascii_of_N 8)
  else if (n =? 102)%N then Some (ascii_of_N 12)
  else if (n =? 110)%N then Some (ascii_of_N 10)
  else if (n =? 114)%N then Some (ascii_of_N 13)
  else if (n =? 116)%N then Some (ascii_of_N 9)
  else None.

Definition prepend (c : ascii) (r : option (string * string)) : option (string * string) :=
  match r with
  | Some (s, rest) => Some (String c s, rest)
  | None => None
  end.

(** [scanstring] (strict mode), entered after the opening quote: returns the
    decoded text and what follows the closing quote. *)
Fixpoint scanstring (s : string) : option (string * string) :=
  match s with
  | EmptyString => None
  | String c r =>
      if Ascii.eqb c dquote then Some (EmptyString, r)
      else if Ascii.eqb c backslash then
        match r with
        | String e r1 =>
            if Ascii.eqb e "u" then
              match r1 with
              | String h1 (String h2 (String h3 (String h4 r2))) =>
                  match code_point h1 h2 h3 h4 with
                  | Some ch => prepend ch (scanstring r2)
                  | None => None
                  end
              | _ => None
              end
            else
              match unescape e with
              | Some ch => prepend ch (scanstring r1)
              | None => None
              end
        | EmptyString => None
        end
      else if (N_of_ascii c <? 32)%N then None
      else prepend c (scanstring r)
  end.

Fixpoint span_digits (s : string) : string * string :=
  match s with
  | String c r =>
      if is_digit c then let (d, r') := span_digits r in (String c d, r')
      else (EmptyString, s)
  | EmptyString => (EmptyString, EmptyString)
  end.

Definition float_follows (s : string) : bool :=
  match s with
  | String c _ => Ascii.eqb c "." || Ascii.eqb c "e" || Ascii.eqb c "E"
  | EmptyString => false
  end.

(** [NUMBER_RE], integer part only: an optional minus sign, then either a
    single zero or digits without a leading zero.  A numeral with a leading
    zero is rejected here; the decoder proper reads the zero alone and then
    fails on the digit that follows, in every context. *)
Definition scan_number (s : string) : option (Z * string) :=
  let (neg, s1) :=
    match s with
    | String c r => if Ascii.eqb c "-" then (true, r) else (false, s)
    | EmptyString => (false, s)
    end in
  let (ds, rest) := span_digits s1 in
  match NilZero.uint_of_string ds with
  | Some u =>
      if Decimal.uint_beq (Decimal.unorm u) u && negb (float_follows rest)
      then Some ((if neg then Z.opp (Z.of_uint u) else Z.of_uint u), rest)
      else None
  | None => None
  end.

Definition num_start (c : ascii) : bool := is_digit c || Ascii.eqb c "-".

Definition literal (lit : string) (v : json) (s : string) : option (json * string) :=
  match strip_prefix lit s with
  | Some r => Some (v, r)
  | None => None
  end.

(** The scanner ([scan_once]) with [JSONArray] and [JSONObject]; [fuel]
    bounds the number of nested calls. *)
Fixpoint parse_value (fuel : nat) (s : string) : option (json * string) :=
  match fuel with
  | O => None
  | S n =>
      match s with
      | EmptyString => None
      | String c r =>
          if num_start c then
            match scan_number s with
            | Some (z, r') => Some (JInt z, r')
            | None => None
            end
          else if Ascii.eqb c dquote then
            match scanstring r with
            | Some (str, r') => Some (JStr str, r')
            | None => None
            end
          else if Ascii.eqb c "[" then
            match strip_prefix "]" (skip_ws r) with
            | Some r' => Some (JArr [], r')
            | None =>
                match parse_elems n (skip_ws r) with
                | Some (l, r') => Some (JArr l, r')
                | None => None
                end
            end
          else if Ascii.eqb c "{" then
            match strip_prefix "}" (skip_ws r) with
            | Some r' => Some (JObj [], r')
            | None =>
                match parse_members n (skip_ws r) with
                | Some (m, r') => Some (JObj (dict_of_items m), r')
                | None => None
                end
            end
          else if Ascii.eqb c "n" then literal "null" JNull s
          else if Ascii.eqb c "t" then literal "true" (JBool true) s
          else if Ascii.eqb c "f" then literal "false" (JBool false) s
          else None
      end
  end

with parse_elems (fuel : nat) (s : string) : option (list json * string) :=
  match fuel with
  | O => None
  | S n =>
      match parse_value n s with
      | Some (v, r) =>
          match skip_ws r with
          | String c r' =>
              if Ascii.eqb c "]" then Some ([v], r')
              else if Ascii.eqb c "," then
                match parse_elems n (skip_ws r') with
                | Some (l, r'') => Some (v :: l, r'')
                | None => None
                end
              else None
          | EmptyString => None
          end
      | None => None
      end
  end

with parse_members (fuel : nat) (s : string) : option (list (string * json) * string) :=
  match fuel with
  | O => None
  | S n =>
      match s with
      | String q r0 =>
          if Ascii.eqb q dquote then
            match scanstring r0 with
            | Some (k, r1) =>
                match skip_ws r1 with
                | String c r2 =>
                    if Ascii.eqb c ":" then
                      match parse_value n (skip_ws r2) with
                      | Some (v, r3) =>
                          match skip_ws r3 with
                          | String d r4 =>
                              if Ascii.eqb d "}" then Some ([(k, v)], r4)
                              else if Ascii.eqb d "," then
                                match parse_members n (skip_ws r4) with
                                | Some (m, r5) => Some ((k, v) :: m, r5)
                                | None => None
                                end
                              else None
                          | EmptyString => None
                          end
                      | None => None
                      end
                    else None
                | EmptyString => None
                end
            | None => None
            end
          else None
      | EmptyString => None
      end
  end.

(** [json.loads]: leading whitespace, one value, trailing whitespace, end of
    input; [None] stands for the [ValueError] the decoder raises. *)
Definition loads (s : string) : option json :=
  match parse_value (S (String.length s)) (skip_ws s) with
  | Some (v, r) =>
      match skip_ws r with
      | EmptyString => Some v
      | _ => None
      end
  | None => None
  end.

(** What may follow a numeral for it to be read back whole. *)
Definition ends_numeral (r : string) : Prop :=
  match r with
  | String c _ => is_digit c = false /\ float_follows r = false
  | EmptyString => True
  end.

(** The characters a serialised value can begin with are neither whitespace
    nor a closing bracket. *)
Definition value_start (c : ascii) : bool :=
  negb (is_ws c) && negb (Ascii.eqb c "]") && negb (Ascii.eqb c "}").

(** The text of one object member, and of all of them. *)
Definition dumps_member (kv : string * json) : string :=
  quote (fst kv) ++ ": " ++ dumps (snd kv).

(** The value parser succeeds on [dumps x] followed by anything that ends a
    numeral, given fuel for the text of [x]. *)
Definition reads_back (x : json) : Prop :=
  forall fuel r, String.length (dumps x) <= fuel -> ends_numeral r ->
                 parse_value fuel (dumps x ++ r) = Some (x, r).

End Json.
Import Json.

(** ** Exceptions, results, and the state-and-exception monad *)

Inductive exn : Type :=
| ValueError                      (* json.loads on malformed text *)
| KeyError (key : string)
| TypeError
| AttributeError
| ENOENT (path : string)          (* reading a file that is not there *)
| ConnectionError (msg : string)  (* raised by responses for an unmatched request *)
| TransportError (what : string). (* whatever the real send raises: timeout, refused, ... *)

Inductive result (A : Type) : Type :=
| Ok (a : A)
| Raise (e : exn).
Arguments Ok {A} a.
Arguments Raise {A} e.

(** A computation over a mutable world [S]: effects performed before an
    exception is raised stay performed. *)
Definition M (S A : Type) : Type := S -> S * result A.

Definition ret {S A} (a : A) : M S A := fun s => (s, Ok a).
Definition raise {S A} (e : exn) : M S A := fun s => (s, Raise e).
Definition bind {S A B} (m : M S A) (k : A -> M S B) : M S B :=
  fun s => match m s with
           | (s', Ok a) => k a s'
           | (s', Raise e) => (s', Raise e)
           end.
Definition get {S} : M S S := fun s => (s, Ok s).
Definition modify {S} (f : S -> S) : M S unit := fun s => (f s, Ok tt).
Definition lift {S A} (r : result A) : M S A := fun s => (s, r).

(** [try: body finally: cleanup] where [cleanup] cannot raise. *)
Definition try_finally {S A} (body : M S A) (cleanup : M S unit) : M S A :=
  fun s => let (s', r) := body s in (fst (cleanup s'), r).

Declare Scope monad_scope.
Delimit Scope monad_scope with monad.
Notation "x <- m ;; k" := (bind m (fun x => k))
  (at level 61, m at next level, right associativity) : monad_scope.
Notation "m ;;; k" := (bind m (fun _ => k))
  (at level 61, right associativity) : monad_scope.
Local Open Scope monad_scope.

(** [for x in xs: body(x)] *)
Fixpoint for_each {S A} (xs : list A) (body : A -> M S unit) : M S unit :=
  match xs with
  | [] => ret tt
  | x :: xs' => body x ;;; for_each xs' body
  end.

(** ** Python object protocol on cassette values *)

(** [obj[key]] with a string key. *)
Definition getitem (obj : json) (key : string) : result json :=
  match obj with
  | JObj m => match dict_get key m with
              | Some v => Ok v
              | None => Raise (KeyError key)
              end
  | _ => Raise TypeError
  end.

Fixpoint chars (s : string) : list json :=
  match s with
  | String c r => JStr (String c EmptyString) :: chars r
  | EmptyString => []
  end.

(** [iter(obj)]: a list yields its elements, a dict its keys, a string its
    characters; anything else is not iterable. *)
Definition py_iter (obj : json) : result (list json) :=
  match obj with
  | JArr l => Ok l
  | JObj m => Ok (map (fun kv => JStr (fst kv)) m)
  | JStr s => Ok (chars s)
  | _ => Raise TypeError
  end.

(** [obj.append(x)] *)
Definition py_append (obj : json) (x : json) : result json :=
  match obj with
  | JArr l => Ok (JArr (l ++ [x]))
  | _ => Raise AttributeError
  end.

(** [a or b] on an optional string: [None] and the empty string are falsy. *)
Definition py_or (a : option string) (b : string) : string :=
  match a with
  | Some EmptyString => b
  | Some s => s
  | None => b
  end.

(** ** [requests.structures.CaseInsensitiveDict] *)

Module Cid.

(** The entries [(cased key, value)]; the class keeps them in a store keyed by
    the lower-cased key, so every lookup compares lower-cased keys. *)
Definition t : Type := list (string * string).

Definition same_key (key : string) (kv : string * string) : bool :=
  String.eqb (lower (fst kv)) (lower key).

Fixpoint find (key : string) (h : t) : option string :=
  match h with
  | [] => None
  | kv :: h' => if same_key key kv then Some (snd kv) else find key h'
  end.

(** [h.get(key, default)] *)
Definition get (key default : string) (h : t) : string :=
  match find key h with
  | Some v => v
  | None => default
  end.

(** [del h[key]] *)
Definition del (key : string) (h : t) : result t :=
  match find key h with
  | Some _ => Ok (filter (fun kv => negb (same_key key kv)) h)
  | None => Raise (KeyError key)
  end.

(** [h.items()] *)
Definition items (h : t) : list (string * string) := h.

(** No two entries share a key up to case. *)
Definition wf (h : t) : Prop := NoDup (map (fun kv => lower (fst kv)) h).

End Cid.

(** [dict(h.items())] as a cassette value. *)
Definition dict_of_headers (h : Cid.t) : json :=
  JObj (dict_of_items (map (fun kv => (fst kv, JStr (snd kv))) (Cid.items h))).

(** ** Requests and live responses *)

(** [requests.PreparedRequest] *)
Record prepared_request : Type := {
  method : string;
  url : string;
  path_url : string;
  req_headers : Cid.t;
  req_body : option string
}.

(** [requests.Response]: [text] is the decoded body, [json()] parses it. *)
Record response : Type := {
  status_code : Z;
  headers : Cid.t;
  text : string
}.

Definition response_json (resp : response) : result json :=
  match loads (text resp) with
  | Some v => Ok v
  | None => Raise ValueError
  end.

(** What the network answers to a real [send]: a response or an exception. *)
Definition answer : Type := result response.

(** ** The interception layer ([responses.RequestsMock]) *)

(** Compiled patterns of the shape [lit.*], the only shape the recorder
    compiles; [match] anchors at the start and [.*] may match nothing. *)
Record regex : Type := { re_literal : string }.

Definition re_match (r : regex) (s : string) : bool := startswith (re_literal r) s.

(** The closures the recorder hands to [add_callback]. *)
Inductive callback : Type :=
| CbRecord                    (* self.record() *)
| CbPlay (resp : json).       (* self.play(response) *)

Inductive url_spec : Type :=
| UrlRegex (r : regex)
| UrlValue (v : json).

(** One entry of [RequestsMock._urls]. *)
Record standin : Type := {
  si_method : json;
  si_url : url_spec;
  si_match_querystring : bool;
  si_callback : callback
}.

(** With [match_querystring] the layer compares the registered URL and the
    request URL with their query strings.  The model takes the contract the
    recorder relies on: the two URLs are the same string. *)
Definition has_strict_url_match (url other : string) : bool := String.eqb url other.

Definition has_url_match (m : standin) (request_url : string) : bool :=
  let request_url :=
    if si_match_querystring m then request_url else before_char "?" request_url in
  match si_url m with
  | UrlValue (JStr u) =>
      if si_match_querystring m then has_strict_url_match u request_url
      else String.eqb (before_char "?" u) request_url
  | UrlValue _ => false
  | UrlRegex r => re_match r request_url
  end.

Definition method_matches (m : standin) (meth : string) : bool :=
  match si_method m with
  | JStr x => String.eqb x meth
  | _ => false
  end.

(** [_find_match]: the first registered stand-in whose method and URL match. *)
Fixpoint find_match (urls : list standin) (req : prepared_request) : option standin :=
  match urls with
  | [] => None
  | m :: rest =>
      if method_matches m (method req) && has_url_match m (url req)
      then Some m else find_match rest req
  end.

(** The headers object a callback hands back. *)
Inductive headers_obj : Type :=
| HCaseInsensitive (h : Cid.t)
| HValue (v : json).

(** The triple [(status, headers, body)] a callback returns. *)
Record stub_response : Type := {
  sr_status : json;
  sr_headers : headers_obj;
  sr_body : string
}.

(** ** The world *)

Inductive event : Type :=
| EvLog (msg : string)                       (* _logger.info *)
| EvStart | EvStop | EvReset                 (* responses.start / stop / reset *)
| EvExists (path : string)                   (* path.exists() *)
| EvRead (path : string)                     (* path.read_text *)
| EvWrite (path : string) (data : string)    (* path.write *)
| EvSend (req : prepared_request).           (* requests.Session().send: a real call *)

Record state : Type := {
  (* Recorder *)
  cassette : json;
  has_recorded : bool;
  basedir : string;
  cassette_name : string;
  (* Recorder.responses *)
  started : bool;
  urls : list standin;
  (* the disk: path to content *)
  fs : list (string * string);
  (* effects performed so far, oldest first *)
  trace : list event
}.

Definition set_cassette (c : json) (s : state) : state :=
  {| cassette := c; has_recorded := has_recorded s; basedir := basedir s;
     cassette_name := cassette_name s; started := started s; urls := urls s;
     fs := fs s; trace := trace s |}.
Definition set_has_recorded (b : bool) (s : state) : state :=
  {| cassette := cassette s; has_recorded := b; basedir := basedir s;
     cassette_name := cassette_name s; started := started s; urls := urls s;
     fs := fs s; trace := trace s |}.
Definition set_started (b : bool) (s : state) : state :=
  {| cassette := cassette s; has_recorded := has_recorded s; basedir := basedir s;
     cassette_name := cassette_name s; started := b; urls := urls s;
     fs := fs s; trace := trace s |}.
Definition set_urls (u : list standin) (s : state) : state :=
  {| cassette := cassette s; has_recorded := has_recorded s; basedir := basedir s;
     cassette_name := cassette_name s; started := started s; urls := u;
     fs := fs s; trace := trace s |}.
Definition set_fs (f : list (string * string)) (s : state) : state :=
  {| cassette := cassette s; has_recorded := has_recorded s; basedir := basedir s;
     cassette_name := cassette_name s; started := started s; urls := urls s;
     fs := f; trace := trace s |}.
Definition emit (e : event) (s : state) : state :=
  {| cassette := cassette s; has_recorded := has_recorded s; basedir := basedir s;
     cassette_name := cassette_name s; started := started s; urls := urls s;
     fs := fs s; trace := trace s ++ [e] |}.

Definition R (A : Type) : Type := M state A.

Definition log_info (msg : string) : R unit := modify (emit (EvLog msg)).

(** *** responses lifecycle *)

Definition responses_start : R unit :=
  modify (fun s => emit EvStart (set_started true s)).
Definition responses_stop : R unit :=
  modify (fun s => emit EvStop (set_started false s)).
Definition responses_reset : R unit :=
  modify (fun s => emit EvReset (set_urls [] s)).
Definition responses_add_callback
    (meth : json) (u : url_spec) (match_querystring : bool) (cb : callback) : R unit :=
  modify (fun s =>
    set_urls (urls s ++ [{| si_method := meth; si_url := u;
                            si_match_querystring := match_querystring;
                            si_callback := cb |}]) s).

(** *** the real HTTP client *)

(** [requests.Session().send(req, timeout=2)]; [ans] is what the network
    answers to this call. *)
Definition session_send (req : prepared_request) (ans : answer) : R response :=
  modify (emit (EvSend req)) ;;; lift ans.

(** ** [Recorder] *)

Definition GET : string := "GET".

(** [re.compile("http.*")] *)
Definition all_re : regex := {| re_literal := "http" |}.

(** [Recorder.__init__]; [dirpath] and [node_name] are
    [pytest_req.fspath.dirpath()] and [pytest_req.node.name]. *)
Definition init (dirpath node_name : string) (basedir_arg cassette_name_arg : option string)
    (disk : list (string * string)) : state :=
  {| cassette := JArr [];
     has_recorded := false;
     basedir := py_or basedir_arg dirpath;
     cassette_name := py_or cassette_name_arg node_name;
     started := false;
     urls := [];
     fs := disk;
     trace := [] |}.

Definition sep : ascii := "/"%char.

Definition path_join (dir name : string) : string := dir ++ String sep name.

Definition _cass_dir (s : state) : string := path_join (basedir s) "cassettes".

Definition _test_name (s : state) : string :=
  let filename := replace_char sep "_" (cassette_name s) in
  filename ++ "." ++ "cassette".

Definition _cass_file (s : state) : string := path_join (_cass_dir s) (_test_name s).

Definition has_cassette : R bool :=
  s <- get ;;
  modify (emit (EvExists (_cass_file s))) ;;;
  ret (match dict_get (_cass_file s) (fs s) with Some _ => true | None => false end).

Definition read_text (path : string) : R string :=
  s <- get ;;
  modify (emit (EvRead path)) ;;;
  match dict_get path (fs s) with
  | Some data => ret data
  | None => raise (ENOENT path)
  end.

Definition write_file (path data : string) : R unit :=
  modify (fun s => emit (EvWrite path data) (set_fs (dict_set path data (fs s)) s)).

(** [Recorder.play(response)] applied to a live request. *)
Definition play (resp : json) (http_req : prepared_request) : result stub_response :=
  match getitem resp "status_code" with
  | Raise e => Raise e
  | Ok status =>
      match getitem resp "headers" with
      | Raise e => Raise e
      | Ok hdrs =>
          match getitem resp "body" with
          | Raise e => Raise e
          | Ok body =>
              Ok {| sr_status := status; sr_headers := HValue hdrs; sr_body := dumps body |}
          end
      end
  end.

Definition opt_str (o : option string) : json :=
  match o with Some s => JStr s | None => JNull end.

(** The [track["request"]] dict built by the recording callback. *)
Definition track_request (http_prep_req : prepared_request) : json :=
  JObj [ ("method", JStr (method http_prep_req));
         ("url", JStr (url http_prep_req));
         ("path", JStr (path_url http_prep_req));
         ("headers", dict_of_headers (req_headers http_prep_req));
         ("body", opt_str (req_body http_prep_req)) ].

(** The header clean-up of the recording callback: the transport has already
    decoded a gzip body, so the header announcing it is deleted. *)
Definition strip_gzip (h : Cid.t) : result Cid.t :=
  let content_encoding := Cid.get "Content-Encoding" "" h in
  if contains "gzip" content_encoding then Cid.del "Content-Encoding" h else Ok h.

(** [body, bodys]: the parsed body and its re-serialisation, or the raw text
    twice when the body is not JSON. *)
Definition decode_body (resp : response) : json * string :=
  match response_json resp with
  | Ok body => (body, dumps body)
  | Raise _ => (JStr (text resp), text resp)
  end.

(** [Recorder.record()] applied to a live request. *)
Definition record (http_prep_req : prepared_request) (ans : answer) : R stub_response :=
  let request := track_request http_prep_req in
  responses_stop ;;;
  try_finally
    (resp <- session_send http_prep_req ans ;;
     hdrs <- lift (strip_gzip (headers resp)) ;;
     let (body, bodys) := decode_body resp in
     let track :=
       JObj [ ("request", request);
              ("response", JObj [ ("status_code", JInt (status_code resp));
                                  ("headers", dict_of_headers hdrs);
                                  ("body", body) ]) ] in
     s <- get ;;
     c <- lift (py_append (cassette s) track) ;;
     modify (set_cassette c) ;;;
     modify (set_has_recorded true) ;;;
     ret {| sr_status := JInt (status_code resp);
            sr_headers := HCaseInsensitive hdrs;
            sr_body := bodys |})
    responses_start.

Definition setup_recording : R unit :=
  log_info "recording ..." ;;;
  responses_reset ;;;
  responses_add_callback (JStr GET) (UrlRegex all_re) false CbRecord.

(** The body of the loop in [rewind_cassette]. *)
Definition register_track (track : json) : R unit :=
  req <- lift (getitem track "request") ;;
  meth <- lift (getitem req "method") ;;
  u <- lift (getitem req "url") ;;
  resp <- lift (getitem track "response") ;;
  responses_add_callback meth (UrlValue u) true (CbPlay resp).

Definition rewind_cassette : R unit :=
  s <- get ;;
  tracks <- lift (py_iter (cassette s)) ;;
  for_each tracks register_track.

Definition _insert_cassette : R unit :=
  s <- get ;;
  if negb (has_recorded s) then
    data <- read_text (_cass_file s) ;;
    match loads data with
    | Some c => modify (set_cassette c)
    | None => raise ValueError
    end
  else ret tt.

Definition setup_playback : R unit :=
  log_info "playing back ..." ;;;
  _insert_cassette ;;;
  responses_reset ;;;
  rewind_cassette.

Definition setup : R unit :=
  responses_start ;;;
  present <- has_cassette ;;
  if negb present then setup_recording else setup_playback.

Definition teardown : R unit :=
  responses_stop ;;;
  responses_reset ;;;
  s <- get ;;
  if has_recorded s then write_file (_cass_file s) (dumps (cassette s))
  else ret tt.

(** ** Requests issued by the test body *)

Definition run_callback (cb : callback) (req : prepared_request) (ans : answer)
    : R stub_response :=
  match cb with
  | CbRecord => record req ans
  | CbPlay resp => lift (play resp req)
  end.

(** [RequestsMock._on_request]: an unmatched request is refused, a matched one
    is answered by its callback. *)
Definition on_request (req : prepared_request) (ans : answer) : R stub_response :=
  s <- get ;;
  match find_match (urls s) req with
  | None =>
      raise (ConnectionError ("Connection refused: " ++ method req ++ " " ++ url req))
  | Some m => run_callback (si_callback m) req ans
  end.

(** What the test body gets back from the HTTP client. *)
Inductive reply : Type :=
| Stubbed (r : stub_response)     (* built by the interception layer *)
| Live (r : response).            (* came from the network *)

(** One HTTP call of the test body: intercepted while the mock is started,
    sent to the network otherwise. *)
Definition http_call (req : prepared_request) (ans : answer) : R reply :=
  s <- get ;;
  if started s then (r <- on_request req ans ;; ret (Stubbed r))
  else (r <- session_send req ans ;; ret (Live r)).

(** The test body: a sequence of calls, each paired with what the network
    would answer if the call reached it.  The outcomes are collected; a call
    that raises does not stop the ones after it. *)
Fixpoint run_test (calls : list (prepared_request * answer)) (s : state)
    : state * list (result reply) :=
  match calls with
  | [] => (s, [])
  | (req, ans) :: rest =>
      let (s1, r) := http_call req ans s in
      let (s2, rs) := run_test rest s1 in
      (s2, r :: rs)
  end.

(** ** Observations on traces *)



Definition is_write (e : event) : bool := match e with EvWrite _ _ => true | _ => false end.
Definition is_send (e : event) : bool := match e with EvSend _ => true | _ => false end.

Definition writes (tr : list event) : list event := filter is_write tr.
Definition sends (tr : list event) : list event := filter is_send tr.

(** The stand-in [setup_recording] registers. *)
Definition recording_standin : standin :=
  {| si_method := JStr GET; si_url := UrlRegex all_re;
     si_match_querystring := false; si_callback := CbRecord |}.

(** The stand-in [rewind_cassette] registers for a track with the given
    method, URL and response. *)
Definition playback_standin (meth u resp : json) : standin :=
  {| si_method := meth; si_url := UrlValue u;
     si_match_querystring := true; si_callback := CbPlay resp |}.


Definition refused (req : prepared_request) : exn :=
  ConnectionError ("Connection refused: " ++ method req ++ " " ++ url req).

(** The stand-in a track gives rise to, or the exception its shape causes. *)
Definition standin_of_track (track : json) : result standin :=
  match getitem track "request" with
  | Raise e => Raise e
  | Ok req =>
      match getitem req "method" with
      | Raise e => Raise e
      | Ok meth =>
          match getitem req "url" with
          | Raise e => Raise e
          | Ok u =>
              match getitem track "response" with
              | Raise e => Raise e
              | Ok resp => Ok (playback_standin meth u resp)
              end
          end
      end
  end.

(** The stand-ins registered for a list of tracks, up to the first track of
    the wrong shape. *)
Fixpoint standins_of_tracks (tracks : list json) : list standin * result unit :=
  match tracks with
  | [] => ([], Ok tt)
  | t :: rest =>
      match standin_of_track t with
      | Ok m => let (ms, r) := standins_of_tracks rest in (m :: ms, r)
      | Raise e => ([], Raise e)
      end
  end.

Definition is_play (m : standin) : bool :=
  match si_callback m with CbPlay _ => true | CbRecord => false end.

(** The track the recording callback appends for a request, the live
    response to it and the cleaned headers. *)
Definition recorded_response (resp : response) (hdrs : Cid.t) : json :=
  JObj [ ("status_code", JInt (status_code resp));
         ("headers", dict_of_headers hdrs);
         ("body", fst (decode_body resp)) ].

Definition recorded_track (req : prepared_request) (resp : response) (hdrs : Cid.t) : json :=
  JObj [ ("request", track_request req); ("response", recorded_response resp hdrs) ].

(** The headers without every entry named [key], up to case. *)
Definition without_header (key : string) (h : Cid.t) : Cid.t :=
  filter (fun kv => negb (Cid.same_key key kv)) h.

(** The world after a successful run of the recording callback. *)
Definition after_recording (req : prepared_request) (track : json) (l : list json)
    (s : state) : state :=
  {| cassette := JArr (l ++ [track]); has_recorded := true; basedir := basedir s;
     cassette_name := cassette_name s; started := true; urls := urls s;
     fs := fs s; trace := trace s ++ [EvStop; EvSend req; EvStart] |}.

(** The world after a run of the recording callback in which the real call
    raised. *)
Definition after_failed_recording (req : prepared_request) (s : state) : state :=
  {| cassette := cassette s; has_recorded := has_recorded s; basedir := basedir s;
     cassette_name := cassette_name s; started := true; urls := urls s;
     fs := fs s; trace := trace s ++ [EvStop; EvSend req; EvStart] |}.

(** The world [setup] leaves when no cassette file exists. *)
Definition after_setup_recording (s : state) : state :=
  {| cassette := cassette s; has_recorded := has_recorded s; basedir := basedir s;
     cassette_name := cassette_name s; started := true; urls := [recording_standin];
     fs := fs s;
     trace := trace s ++ [EvStart; EvExists (_cass_file s); EvLog "recording ..."; EvReset] |}.

(** The world in which [setup] starts loading the cassette. *)
Definition before_load (s : state) : state :=
  {| cassette := cassette s; has_recorded := has_recorded s; basedir := basedir s;
     cassette_name := cassette_name s; started := true; urls := urls s;
     fs := fs s;
     trace := trace s ++ [EvStart; EvExists (_cass_file s); EvLog "playing back ...";
                          EvRead (_cass_file s)] |}.

(** The world [setup] leaves when the cassette file holds the cassette [c]:
    one stand-in per track, up to the first track of the wrong shape. *)
Definition after_setup_playback (c : json) (registered : list standin) (s : state) : state :=
  {| cassette := c; has_recorded := has_recorded s; basedir := basedir s;
     cassette_name := cassette_name s; started := true; urls := registered;
     fs := fs s;
     trace := trace s ++ [EvStart; EvExists (_cass_file s); EvLog "playing back ...";
                          EvRead (_cass_file s); EvReset] |}.

(** The two kinds of world a session runs in after [setup]. *)
Definition recording_world (s : state) : Prop :=
  started s = true /\ urls s = [recording_standin] /\ exists l, cassette s = JArr l.

Definition playback_world (s : state) : Prop :=
  started s = true /\ forallb is_play (urls s) = true.

(** Whether the stand-in of [setup_recording] answers a request. *)
Definition recordable (req : prepared_request) : bool :=
  String.eqb GET (method req) && startswith "http" (url req).


(** The events [setup_playback] can cause after its log line. *)
Definition is_load_event (e : event) : bool :=
  match e with
  | EvRead _ | EvReset => true
  | _ => false
  end.

(** Whether the cassette file of this recorder is on the disk. *)
Definition cassette_present (s : state) : bool :=
  match dict_get (_cass_file s) (fs s) with Some _ => true | None => false end.

(** The world after [teardown]. *)
Definition after_teardown (s : state) : state :=
  {| cassette := cassette s; has_recorded := has_recorded s; basedir := basedir s;
     cassette_name := cassette_name s; started := false; urls := [];
     fs := if has_recorded s then dict_set (_cass_file s) (dumps (cassette s)) (fs s)
           else fs s;
     trace := trace s ++ [EvStop; EvReset] ++
              (if has_recorded s then [EvWrite (_cass_file s) (dumps (cassette s))] else []) |}.

(** What a call gets in a playback world: the reply of the first stand-in
    that matches, computed from its stored response, or a refusal.  (A
    playback world has no recording stand-in; that branch is never taken.) *)
Definition replay (registered : list standin) (req : prepared_request) : result reply :=
  match find_match registered req with
  | Some m =>
      match si_callback m with
      | CbPlay resp =>
          match play resp req with
          | Ok r => Ok (Stubbed r)
          | Raise e => Raise e
          end
      | CbRecord => Raise (refused req)
      end
  | None => Raise (refused req)
  end.

(** One session of a recorder: [setup], the test body, [teardown]. *)
Definition session (s0 : state) (calls : list (prepared_request * answer))
    : state * list (result reply) :=
  let s1 := fst (setup s0) in
  let (s2, outs) := run_test calls s1 in
  (fst (teardown s2), outs).

(** The body of a reply, when there is one. *)
Definition reply_body (r : result reply) : option string :=
  match r with
  | Ok (Stubbed x) => Some (sr_body x)
  | Ok (Live x) => Some (text x)
  | Raise _ => None
  end.

(** The decoded body of a live response: the parsed value when the text is
    JSON, the text itself otherwise. *)
Definition decoded_body (resp : response) : json :=
  match loads (text resp) with
  | Some v => v
  | None => JStr (text resp)
  end.

(** The headers of a live response after the clean-up of the recording
    callback. *)
Definition cleaned_headers (resp : response) : Cid.t :=
  if contains "gzip" (Cid.get "Content-Encoding" "" (headers resp))
  then without_header "Content-Encoding" (headers resp)
  else headers resp.

(** Header entries as members of a cassette object. *)
Definition header_members (h : Cid.t) : list (string * json) :=
  map (fun kv => (fst kv, JStr (snd kv))) h.

(** *** Exchanges: a request together with the live response to it *)

(** The entries the interception layer copies out of a headers object. *)
Definition header_entries (h : headers_obj) : option (list (string * json)) :=
  match h with
  | HCaseInsensitive c => Some (header_members c)
  | HValue (JObj m) => Some m
  | HValue _ => None
  end.

(** Two outcomes are the same reply: same status, same header entries, same
    body string. *)
Definition same_reply (a b : result reply) : Prop :=
  match a, b with
  | Ok (Stubbed x), Ok (Stubbed y) =>
      sr_status x = sr_status y /\
      header_entries (sr_headers x) = header_entries (sr_headers y) /\
      sr_body x = sr_body y
  | _, _ => False
  end.

Definition exchange : Type := (prepared_request * response)%type.

(** The calls of a test body whose real calls all succeed. *)
Definition live_calls (exchanges : list exchange) : list (prepared_request * answer) :=
  map (fun e => (fst e, Ok (snd e))) exchanges.

Definition request_key (e : exchange) : string * string :=
  (method (fst e), url (fst e)).

Definition exchange_track (e : exchange) : json :=
  recorded_track (fst e) (snd e) (cleaned_headers (snd e)).

Definition exchange_reply (e : exchange) : result reply :=
  Ok (Stubbed {| sr_status := JInt (status_code (snd e));
                 sr_headers := HCaseInsensitive (cleaned_headers (snd e));
                 sr_body := snd (decode_body (snd e)) |}).

Definition exchange_standin (e : exchange) : standin :=
  playback_standin (JStr (method (fst e))) (JStr (url (fst e)))
    (recorded_response (snd e) (cleaned_headers (snd e))).

(** An exchange the recorder replays faithfully: a GET to an http URL whose
    live body is JSON and whose header names differ up to case. *)
Definition faithful (e : exchange) : Prop :=
  recordable (fst e) = true /\
  (exists v, loads (text (snd e)) = Some v) /\
  Cid.wf (headers (snd e)).

(** ** Sample data *)

Definition sample_get : prepared_request :=
  {| method := "GET"; url := "http://api.example.com/users?id=1";
     path_url := "/users?id=1";
     req_headers := [("Accept", "*/*")]; req_body := None |}.

Definition sample_post : prepared_request :=
  {| method := "POST"; url := "http://api.example.com/users";
     path_url := "/users";
     req_headers := [("Content-Type", "application/json")];
     req_body := Some "{}" |}.

(** A JSON body delivered gzip-encoded and decoded by the transport. *)
Definition sample_json_response : response :=
  {| status_code := 200;
     headers := [("Content-Type", "application/json"); ("content-encoding", "gzip")];
     text := "{" ++ quote "id" ++ ": 1}" |}.

(** A plain text body. *)
Definition sample_text_response : response :=
  {| status_code := 200;
     headers := [("Content-Type", "text/plain")];
     text := "hello" |}.

(** A fresh recorder for the test [test_foo], on the given disk. *)
Definition sample_recorder (disk : list (string * string)) : state :=
  init "/repo/tests" "test_foo" None None disk.

Definition sample_cassette_path : string := "/repo/tests/cassettes/test_foo.cassette".

(** The cassette of a session that recorded [sample_get], and a disk that
    holds it. *)
Definition sample_cassette : json :=
  JArr [recorded_track sample_get sample_json_response
          [("Content-Type", "application/json")]].

Definition sample_disk : list (string * string) :=
  [(sample_cassette_path, dumps sample_cassette)].

(** A world in the middle of a recording session. *)
Definition sample_recording_world : state := fst (setup (sample_recorder [])).

(** A request answered with a plain text body. *)
Definition sample_motd : prepared_request :=
  {| method := "GET"; url := "http://api.example.com/motd";
     path_url := "/motd"; req_headers := []; req_body := None |}.

Definition sample_text_calls : list (prepared_request * answer) :=
  [(sample_motd, Ok sample_text_response)].

(** ** Further observations on the recorder *)

(** Whether a character occurs in a string. *)
Fixpoint occurs (c : ascii) (s : string) : bool :=
  match s with
  | String x r => Ascii.eqb x c || occurs c r
  | EmptyString => false
  end.

(** The exceptions a cassette of the wrong shape causes. *)
Definition shape_error (e : exn) : bool :=
  match e with
  | KeyError _ | TypeError => true
  | _ => false
  end.

Definition is_read (e : event) : bool := match e with EvRead _ => true | _ => false end.
Definition reads (tr : list event) : list event := filter is_read tr.

(** What [_insert_cassette] leaves as the cassette: the one in memory when
    something has been recorded, the content of the file otherwise. *)
Definition loaded_cassette (s : state) : result json :=
  if has_recorded s then Ok (cassette s)
  else match dict_get (_cass_file s) (fs s) with
       | None => Raise (ENOENT (_cass_file s))
       | Some data =>
           match loads data with
           | Some c => Ok c
           | None => Raise ValueError
           end
       end.

Definition load_events (s : state) : list event :=
  if has_recorded s then [] else [EvRead (_cass_file s)].

(** The stand-ins [rewind_cassette] registers for a cassette, and how the
    loop ends. *)
Definition playback_standins (c : json) : list standin * result unit :=
  match py_iter c with
  | Ok tracks => standins_of_tracks tracks
  | Raise e => ([], Raise e)
  end.

(** The world [setup_playback] leaves when loading fails. *)
Definition after_load_failure (s : state) : state :=
  {| cassette := cassette s; has_recorded := has_recorded s; basedir := basedir s;
     cassette_name := cassette_name s; started := started s; urls := urls s;
     fs := fs s;
     trace := trace s ++ EvLog "playing back ..." :: load_events s |}.

(** The world [setup_playback] leaves once the cassette [c] is loaded. *)
Definition after_rewind (c : json) (s : state) : state :=
  {| cassette := c; has_recorded := has_recorded s; basedir := basedir s;
     cassette_name := cassette_name s; started := started s;
     urls := fst (playback_standins c);
     fs := fs s;
     trace := trace s ++ EvLog "playing back ..." :: load_events s ++ [EvReset] |}.

(** The world in which [setup] enters one of the two modes. *)
Definition after_existence_check (s : state) : state :=
  {| cassette := cassette s; has_recorded := has_recorded s; basedir := basedir s;
     cassette_name := cassette_name s; started := true; urls := urls s;
     fs := fs s;
     trace := trace s ++ [EvStart; EvExists (_cass_file s)] |}.

(** The tracks a recording session captures for the calls of a test body, in
    call order. *)
Fixpoint captured_tracks (calls : list (prepared_request * answer)) : list json :=
  match calls with
  | [] => []
  | (req, Ok resp) :: rest =>
      if recordable req
      then recorded_track req resp (cleaned_headers resp) :: captured_tracks rest
      else captured_tracks rest
  | (_, Raise _) :: rest => captured_tracks rest
  end.

(** What a call gets in a recording world. *)
Definition recording_outcome (call : prepared_request * answer) : result reply :=
  if recordable (fst call) then
    match snd call with
    | Ok resp => exchange_reply (fst call, resp)
    | Raise e => Raise e
    end
  else Raise (refused (fst call)).


(** A well-shaped track: a request with a method and a URL, and a response. *)
Definition make_track (meth u resp : json) : json :=
  JObj [ ("request", JObj [("method", meth); ("url", u)]); ("response", resp) ].

Definition sample_calls : list (prepared_request * answer) :=
  [ (sample_get, Ok sample_json_response);
    (sample_post, Ok sample_text_response);
    (sample_motd, Raise (TransportError "timeout"));
    (sample_motd, Ok sample_text_response) ].

(** A recorder at the end of a recording session: it has recorded, and its
    cassette file is on the disk. *)
Definition sample_recorded_world : state :=
  fst (session (sample_recorder []) [(sample_get, Ok sample_json_response)]).

(** How a stand-in relates to the track it was registered for. *)
Definition registered_for (track : json) (m : standin) : Prop :=
  exists req meth u resp,
    getitem track "request" = Ok req /\
    getitem req "method" = Ok meth /\
    getitem req "url" = Ok u /\
    getitem track "response" = Ok resp /\
    m = playback_standin meth u resp.


(** A body delivered deflate-encoded: the header is not a gzip one. *)
Definition sample_deflate_response : response :=
  {| status_code := 200;
     headers := [("Content-Encoding", "deflate"); ("Content-Type", "text/plain")];
     text := "hello" |}.

(* ================================================================== *)
(** * Part II. Theorems *)
(* ================================================================== *)

(** ** The json codec on examples *)

Example dumps_ex1 :
  dumps (JObj [("id", JInt 1); ("tags", JArr [JStr "a"; JNull; JBool true])])
  = "{" ++ quote "id" ++ ": 1, " ++ quote "tags" ++ ": [" ++ quote "a" ++ ", null, true]}".
Proof. reflexivity. Qed.

Example loads_ex1 :
  loads (dumps (JObj [("id", JInt (-12)); ("tags", JArr [JStr "a\b"; JNull; JArr []; JObj []])]))
  = Some (JObj [("id", JInt (-12)); ("tags", JArr [JStr "a\b"; JNull; JArr []; JObj []])]).
Proof. vm_compute. reflexivity. Qed.

Example loads_ex2 : loads "hello" = None.
Proof. reflexivity. Qed.

Example loads_ex3 : loads " [1 , 2,3 ] " = Some (JArr [JInt 1; JInt 2; JInt 3]).
Proof. vm_compute. reflexivity. Qed.

Example loads_ex4 : loads "[01]" = None /\ loads "1.5" = None /\ loads "-0" = Some (JInt 0) /\ loads "" = None.
Proof. vm_compute. repeat split. Qed.

(** ** Strings *)

#[local] Arguments Ascii.eqb !a !b : simpl nomatch.

Lemma str_app_assoc (a b c : string) : ((a ++ b) ++ c)%string = (a ++ (b ++ c))%string.
Proof. induction a as [|x a IH]; simpl; [reflexivity | now rewrite IH]. Qed.

Lemma str_app_nil_r (a : string) : (a ++ "")%string = a.
Proof. induction a as [|x a IH]; simpl; [reflexivity | now rewrite IH]. Qed.

Lemma str_length_app (a b : string) :
  String.length (a ++ b) = String.length a + String.length b.
Proof. induction a as [|x a IH]; simpl; [reflexivity | now rewrite IH]. Qed.

Lemma strip_prefix_app (p r : string) : strip_prefix p (p ++ r) = Some r.
Proof.
  induction p as [|x p IH]; simpl; [reflexivity|].
  now rewrite Ascii.eqb_refl.
Qed.

Lemma strip_prefix_sound (p s r : string) : strip_prefix p s = Some r -> s = (p ++ r)%string.
Proof.
  revert s; induction p as [|x p IH]; intros s; simpl.
  - now intros [= ->].
  - destruct s as [|y s]; [discriminate|].
    destruct (Ascii.eqb_spec x y) as [->|]; [|discriminate].
    intros H. now rewrite (IH _ H).
Qed.

Lemma skip_ws_head (c : ascii) (r : string) :
  is_ws c = false -> skip_ws (String c r) = String c r.
Proof. intros H. simpl. now rewrite H. Qed.

(** ** The json codec: [loads] inverts [dumps] *)

Module JsonFacts.

(** Induction on cassette values that reaches inside arrays and objects. *)
Lemma json_ind_nested (P : json -> Prop)
  (Hnull : P JNull) (Hbool : forall b, P (JBool b)) (Hint : forall z, P (JInt z))
  (Hstr : forall s, P (JStr s))
  (Harr : forall l, Forall P l -> P (JArr l))
  (Hobj : forall m, Forall (fun kv => P (snd kv)) m -> P (JObj m)) :
  forall v, P v.
Proof.
  fix IH 1. intros [ | b | z | s | l | m ].
  - exact Hnull.
  - apply Hbool.
  - apply Hint.
  - apply Hstr.
  - apply Harr. induction l as [|x l IHl]; constructor; [apply IH | exact IHl].
  - apply Hobj. induction m as [|[k x] m IHm]; constructor; [apply IH | exact IHm].
Qed.

Lemma wf_arr (l : list json) : wf (JArr l) <-> Forall wf l.
Proof.
  induction l as [|x l IH]; simpl.
  - split; auto.
  - split.
    + intros [Hx Hl]. constructor; [exact Hx | now apply IH].
    + intros H. inversion H; subst. split; [assumption | now apply IH].
Qed.

Lemma wf_obj (m : list (string * json)) :
  wf (JObj m) <-> NoDup (map fst m) /\ Forall (fun kv => wf (snd kv)) m.
Proof.
  change (wf (JObj m)) with
    (NoDup (map fst m) /\
     (fix all (m : list (string * json)) : Prop :=
        match m with [] => True | kv :: m' => wf (snd kv) /\ all m' end) m).
  assert (E : (fix all (m : list (string * json)) : Prop :=
                 match m with [] => True | kv :: m' => wf (snd kv) /\ all m' end) m
              <-> Forall (fun kv => wf (snd kv)) m).
  { induction m as [|kv m IH].
    - split; auto.
    - split.
      + intros [Hx Hl]. constructor; [exact Hx | now apply IH].
      + intros H. inversion H; subst. split; [assumption | now apply IH]. }
  tauto.
Qed.

(** *** dicts *)

Lemma dict_set_fresh {A} (k : string) (v : A) (m : list (string * A)) :
  ~ In k (map fst m) -> dict_set k v m = (m ++ [(k, v)])%list.
Proof.
  induction m as [|[k' v'] m IH]; simpl; intros H; [reflexivity|].
  destruct (String.eqb_spec k k') as [->|_].
  - exfalso. apply H. now left.
  - rewrite IH; [reflexivity|]. intros Hin. apply H. now right.
Qed.

Lemma dict_of_items_acc {A} (items acc : list (string * A)) :
  NoDup (map fst (acc ++ items)%list) ->
  fold_left (fun d kv => dict_set (fst kv) (snd kv) d) items acc = (acc ++ items)%list.
Proof.
  revert acc. induction items as [|[k v] items IH]; intros acc H; simpl.
  - now rewrite List.app_nil_r.
  - rewrite dict_set_fresh.
    + rewrite IH; rewrite <- List.app_assoc; [reflexivity | exact H].
    + rewrite map_app in H. simpl in H.
      apply NoDup_remove_2 in H. intros Hin. apply H.
      apply in_or_app. now left.
Qed.

Lemma dict_of_items_nodup {A} (items : list (string * A)) :
  NoDup (map fst items) -> dict_of_items items = items.
Proof. intros H. unfold dict_of_items. now rewrite dict_of_items_acc. Qed.

Lemma dict_set_keys {A} (k : string) (v : A) (m : list (string * A)) :
  NoDup (map fst m) -> NoDup (map fst (dict_set k v m)) /\
  (forall x, In x (map fst (dict_set k v m)) -> x = k \/ In x (map fst m)).
Proof.
  induction m as [|[k' v'] m IH]; simpl; intros H.
  - split; [constructor; [intros [] | constructor] | intros x [<-|[]]; now left].
  - inversion H as [|? ? Hnin Hnd]; subst.
    destruct (String.eqb_spec k k') as [->|Hne]; simpl.
    + split; [now constructor | intros x [<-|Hx]; [now left | right; now right]].
    + destruct (IH Hnd) as [IH1 IH2]. split.
      * constructor; [|exact IH1]. intros Hin.
        destruct (IH2 _ Hin) as [->|Hin']; [now apply Hne | now apply Hnin].
      * intros x [<-|Hx]; [right; now left|].
        destruct (IH2 _ Hx) as [->|Hx']; [now left | right; now right].
Qed.

Lemma dict_set_values {A} (P : A -> Prop) (k : string) (v : A) (m : list (string * A)) :
  P v -> Forall (fun kv => P (snd kv)) m -> Forall (fun kv => P (snd kv)) (dict_set k v m).
Proof.
  intros Hv. induction m as [|[k' v'] m IH]; simpl; intros H.
  - now constructor.
  - inversion H; subst.
    destruct (String.eqb k k'); constructor; auto.
Qed.

Lemma dict_of_items_wf {A} (P : A -> Prop) (items : list (string * A)) :
  Forall (fun kv => P (snd kv)) items ->
  NoDup (map fst (dict_of_items items)) /\
  Forall (fun kv => P (snd kv)) (dict_of_items items).
Proof.
  unfold dict_of_items.
  assert (G : forall acc,
    NoDup (map fst acc) -> Forall (fun kv => P (snd kv)) acc ->
    Forall (fun kv => P (snd kv)) items ->
    NoDup (map fst (fold_left (fun d kv => dict_set (fst kv) (snd kv) d) items acc)) /\
    Forall (fun kv => P (snd kv))
      (fold_left (fun d kv => dict_set (fst kv) (snd kv) d) items acc)).
  { induction items as [|[k v] items IH]; intros acc H1 H2 H3; simpl.
    - now split.
    - inversion H3; subst. apply IH; [| |assumption].
      + now apply dict_set_keys.
      + now apply dict_set_values. }
  intros H. apply G; [constructor | constructor | exact H].
Qed.

(** *** strings *)

Lemma scanstring_escape_char (c : ascii) (rest : string) :
  scanstring (escape_char c ++ rest) = prepend c (scanstring rest).
Proof.
  destruct c as [[|] [|] [|] [|] [|] [|] [|] [|]]; reflexivity.
Qed.

Lemma scanstring_escape (s r : string) :
  scanstring (escape s ++ String dquote r) = Some (s, r).
Proof.
  induction s as [|c s IH]; simpl.
  - reflexivity.
  - rewrite str_app_assoc, scanstring_escape_char, IH. reflexivity.
Qed.

Lemma scanstring_quote (s r : string) :
  exists t, (quote s ++ r)%string = String dquote t /\ scanstring t = Some (s, r).
Proof.
  exists (escape s ++ String dquote r)%string. split.
  - unfold quote. simpl. now rewrite str_app_assoc.
  - apply scanstring_escape.
Qed.

(** *** numbers *)

Lemma span_digits_uint (u : Decimal.uint) (r : string) :
  match r with String c _ => is_digit c = false | EmptyString => True end ->
  span_digits (NilEmpty.string_of_uint u ++ r) = (NilEmpty.string_of_uint u, r).
Proof.
  intros Hr. induction u; simpl; try (rewrite IHu; reflexivity).
  destruct r as [|c r]; simpl; [reflexivity | now rewrite Hr].
Qed.

Lemma uint_beq_refl (u : Decimal.uint) : Decimal.uint_beq u u = true.
Proof. induction u; simpl; auto. Qed.

Lemma unorm_to_uint (p : positive) : Decimal.unorm (Pos.to_uint p) = Pos.to_uint p.
Proof.
  rewrite <- (DecimalPos.Unsigned.to_of (Pos.to_uint p)).
  now rewrite DecimalPos.Unsigned.of_to.
Qed.

Lemma of_uint_to_uint (p : positive) : Z.of_uint (Pos.to_uint p) = Zpos p.
Proof. unfold Z.of_uint. now rewrite DecimalPos.Unsigned.of_to. Qed.

Lemma uint_of_string_to_uint (p : positive) :
  NilZero.uint_of_string (NilEmpty.string_of_uint (Pos.to_uint p)) = Some (Pos.to_uint p).
Proof.
  pose proof (DecimalPos.Unsigned.to_uint_nonnil p) as Hn.
  pose proof (NilZero.usu (Pos.to_uint p) Hn) as H.
  unfold NilZero.string_of_uint in H.
  destruct (Pos.to_uint p); [contradiction | exact H ..].
Qed.

Lemma to_uint_head (p : positive) :
  exists c t, NilEmpty.string_of_uint (Pos.to_uint p) = String c t /\ is_digit c = true.
Proof.
  pose proof (DecimalPos.Unsigned.to_uint_nonnil p) as Hn.
  destruct (Pos.to_uint p); [contradiction | simpl; eexists; eexists; split; reflexivity ..].
Qed.

Lemma is_digit_not_minus (c : ascii) : is_digit c = true -> Ascii.eqb c "-" = false.
Proof.
  destruct c as [[|] [|] [|] [|] [|] [|] [|] [|]]; simpl; intros H;
    try reflexivity; discriminate H.
Qed.

Lemma scan_number_dumps_int (z : Z) (r : string) :
  ends_numeral r -> scan_number (dumps_int z ++ r) = Some (z, r).
Proof.
  intros Hr.
  assert (Hd : match r with String c _ => is_digit c = false | EmptyString => True end).
  { destruct r; [exact I | apply Hr]. }
  assert (Hf : float_follows r = false).
  { destruct r; [reflexivity | apply Hr]. }
  destruct z as [|p|p]; unfold scan_number.
  - simpl dumps_int. simpl.
    destruct r as [|c r]; simpl.
    + reflexivity.
    + rewrite Hd. simpl. simpl in Hf. rewrite Hf. reflexivity.
  - simpl dumps_int.
    destruct (to_uint_head p) as (c & t & E & Hc).
    rewrite E. change (String c t ++ r)%string with (String c (t ++ r)%string).
    cbv beta iota. rewrite (is_digit_not_minus c Hc).
    change (String c (t ++ r)%string) with (String c t ++ r)%string. rewrite <- E.
    rewrite span_digits_uint by exact Hd.
    rewrite uint_of_string_to_uint, unorm_to_uint, uint_beq_refl, Hf, of_uint_to_uint.
    reflexivity.
  - simpl dumps_int.
    change (String "-" (NilEmpty.string_of_uint (Pos.to_uint p)) ++ r)%string
      with (String "-" (NilEmpty.string_of_uint (Pos.to_uint p) ++ r)%string).
    cbv beta iota. rewrite Ascii.eqb_refl.
    rewrite span_digits_uint by exact Hd.
    rewrite uint_of_string_to_uint, unorm_to_uint, uint_beq_refl, Hf, of_uint_to_uint.
    reflexivity.
Qed.

Lemma dumps_int_head (z : Z) :
  exists c t, dumps_int z = String c t /\ num_start c = true.
Proof.
  destruct z as [|p|p]; simpl.
  - eexists; eexists; split; reflexivity.
  - destruct (to_uint_head p) as (c & t & E & Hc). exists c, t. split; [exact E|].
    unfold num_start. now rewrite Hc.
  - eexists; eexists; split; reflexivity.
Qed.

(** *** values *)

Lemma num_start_value_start (c : ascii) : num_start c = true -> value_start c = true.
Proof.
  destruct c as [[|] [|] [|] [|] [|] [|] [|] [|]]; simpl; intros H;
    try reflexivity; discriminate H.
Qed.

Lemma dumps_head (v : json) :
  exists c t, dumps v = String c t /\ value_start c = true.
Proof.
  destruct v as [ | [|] | z | s | l | m ]; simpl;
    try (eexists; eexists; split; reflexivity).
  destruct (dumps_int_head z) as (c & t & E & Hc).
  exists c, t. split; [exact E | now apply num_start_value_start].
Qed.

Lemma value_start_skip (c : ascii) (t : string) :
  value_start c = true ->
  skip_ws (String c t) = String c t /\
  strip_prefix "]" (String c t) = None /\ strip_prefix "}" (String c t) = None.
Proof.
  unfold value_start. intros H.
  apply andb_prop in H as [H H3]. apply andb_prop in H as [H1 H2].
  apply negb_true_iff in H1, H2, H3.
  simpl. rewrite H1. rewrite (Ascii.eqb_sym "]" c), (Ascii.eqb_sym "}" c), H2, H3.
  auto.
Qed.

Lemma join_head {A} (f : A -> string) (x : A) (l : list A) :
  (forall a, exists c t, f a = String c t /\ value_start c = true) ->
  exists c t, join_items (map f (x :: l)) = String c t /\ value_start c = true.
Proof.
  intros Hf. destruct (Hf x) as (c & t & E & Hc).
  destruct l as [|y l]; simpl.
  - now exists c, t.
  - rewrite E. simpl. eexists; eexists; split; [reflexivity | exact Hc].
Qed.

Lemma dumps_member_head (kv : string * json) :
  exists c t, dumps_member kv = String c t /\ value_start c = true.
Proof. unfold dumps_member, quote. simpl. eexists; eexists; split; reflexivity. Qed.

Lemma parse_elems_dumps (l : list json) :
  Forall reads_back l -> l <> [] ->
  forall fuel r,
    String.length (join_items (map dumps l)) + 1 <= fuel ->
    parse_elems fuel (join_items (map dumps l) ++ String "]" r) = Some (l, r).
Proof.
  induction l as [|x l IH]; intros HP Hne fuel r Hfuel; [contradiction|].
  inversion HP as [|? ? Hx Hl]; subst.
  destruct fuel as [|n]; [lia|].
  destruct l as [|y l'].
  - simpl join_items in *. simpl parse_elems.
    rewrite Hx; [| lia | split; reflexivity].
    simpl. reflexivity.
  - assert (EJ : join_items (map dumps (x :: y :: l'))
                = (dumps x ++ ", " ++ join_items (map dumps (y :: l')))%string)
      by reflexivity.
    destruct (join_head dumps y l' dumps_head) as (c & t & E & Hc).
    remember (join_items (map dumps (y :: l'))) as J eqn:HJ.
    rewrite EJ in *. clear EJ.
    rewrite !str_length_app in Hfuel. simpl String.length in Hfuel.
    rewrite !str_app_assoc. simpl parse_elems.
    rewrite Hx; [| lia | split; reflexivity].
    simpl.
    assert (Hs : skip_ws (J ++ String "]" r) = (J ++ String "]" r)%string).
    { rewrite E. apply (value_start_skip c (t ++ String "]" r) Hc). }
    rewrite Hs.
    rewrite IH; [reflexivity | exact Hl | discriminate | lia].
Qed.

Lemma skip_ws_value (s rest : string) :
  (exists c t, s = String c t /\ value_start c = true) ->
  skip_ws (s ++ rest) = (s ++ rest)%string /\
  strip_prefix "]" (s ++ rest) = None /\ strip_prefix "}" (s ++ rest) = None.
Proof.
  intros (c & t & -> & Hc). apply (value_start_skip c (t ++ rest) Hc).
Qed.

Lemma member_text (k : string) (v : json) (rest : string) :
  (dumps_member (k, v) ++ rest)%string
  = String dquote (escape k ++ String dquote (String ":" (String " " (dumps v ++ rest)))).
Proof.
  unfold dumps_member, quote. simpl. now rewrite !str_app_assoc.
Qed.

Lemma member_length (k : string) (v : json) :
  String.length (dumps v) + 2 <= String.length (dumps_member (k, v)).
Proof.
  unfold dumps_member. rewrite !str_length_app. simpl. lia.
Qed.

Lemma parse_members_dumps (m : list (string * json)) :
  Forall (fun kv => reads_back (snd kv)) m -> m <> [] ->
  forall fuel r,
    String.length (join_items (map dumps_member m)) + 1 <= fuel ->
    parse_members fuel (join_items (map dumps_member m) ++ String "}" r) = Some (m, r).
Proof.
  induction m as [|[k v] m IH]; intros HP Hne fuel r Hfuel; [contradiction|].
  inversion HP as [|? ? Hv Hm]; subst. simpl in Hv.
  destruct fuel as [|n]; [lia|].
  pose proof (member_length k v) as Hlen.
  destruct m as [|kv' m'].
  - simpl join_items in *. rewrite member_text. simpl parse_members.
    rewrite scanstring_escape. simpl.
    destruct (skip_ws_value (dumps v) (String "}" r) (dumps_head v)) as (Hs & _ & _).
    rewrite Hs, Hv; [| lia | split; reflexivity].
    simpl. reflexivity.
  - assert (EJ : join_items (map dumps_member ((k, v) :: kv' :: m'))
                = (dumps_member (k, v) ++ ", " ++ join_items (map dumps_member (kv' :: m')))%string)
      by reflexivity.
    pose proof (join_head dumps_member kv' m' dumps_member_head) as HJhead.
    remember (join_items (map dumps_member (kv' :: m'))) as J eqn:HJ.
    rewrite EJ in *. clear EJ.
    rewrite !str_length_app in Hfuel. change (String.length ", ") with 2 in Hfuel.
    rewrite !str_app_assoc, member_text. simpl parse_members.
    rewrite scanstring_escape. simpl.
    destruct (skip_ws_value (dumps v) (String "," (String " " (J ++ String "}" r)))
                (dumps_head v)) as (Hs & _ & _).
    rewrite Hs, Hv; [| lia | split; reflexivity].
    simpl.
    destruct (skip_ws_value J (String "}" r) HJhead) as (HsJ & _ & _).
    rewrite HsJ.
    rewrite IH; [reflexivity | exact Hm | discriminate | lia].
Qed.

Lemma parse_value_number (n : nat) (c : ascii) (t : string) :
  num_start c = true ->
  parse_value (S n) (String c t)
  = match scan_number (String c t) with
    | Some (z, r') => Some (JInt z, r')
    | None => None
    end.
Proof. intros H. simpl. rewrite H. reflexivity. Qed.

Lemma parse_value_array (n : nat) (t : string) :
  parse_value (S n) (String "[" t)
  = match strip_prefix "]" (skip_ws t) with
    | Some r' => Some (JArr [], r')
    | None =>
        match parse_elems n (skip_ws t) with
        | Some (l, r') => Some (JArr l, r')
        | None => None
        end
    end.
Proof. reflexivity. Qed.

Lemma parse_value_object (n : nat) (t : string) :
  parse_value (S n) (String "{" t)
  = match strip_prefix "}" (skip_ws t) with
    | Some r' => Some (JObj [], r')
    | None =>
        match parse_members n (skip_ws t) with
        | Some (m, r') => Some (JObj (dict_of_items m), r')
        | None => None
        end
    end.
Proof. reflexivity. Qed.

Lemma Forall_reads_back {A} (f : A -> json) (l : list A) :
  Forall (fun x => wf (f x) -> reads_back (f x)) l ->
  Forall (fun x => wf (f x)) l -> Forall (fun x => reads_back (f x)) l.
Proof.
  induction 1 as [|x l Hx _ IH]; intros Hw; constructor; inversion Hw; subst; auto.
Qed.

Lemma parse_value_dumps (v : json) : wf v -> reads_back v.
Proof.
  induction v as [ | b | z | s | l IH | m IH ] using json_ind_nested;
    intros Hwf fuel r Hfuel Hr.
  - destruct fuel as [|n]; [simpl in Hfuel; lia | reflexivity].
  - destruct b; (destruct fuel as [|n]; [simpl in Hfuel; lia | reflexivity]).
  - destruct (dumps_int_head z) as (c & t & E & Hc). simpl dumps in *.
    destruct fuel as [|n]; [rewrite E in Hfuel; simpl in Hfuel; lia|].
    assert (Et : (dumps_int z ++ r)%string = String c (t ++ r)) by now rewrite E.
    rewrite Et, parse_value_number by exact Hc.
    rewrite <- Et, scan_number_dumps_int by exact Hr. reflexivity.
  - destruct fuel as [|n]; [simpl in Hfuel; lia|].
    simpl dumps. unfold quote. simpl String.append. rewrite str_app_assoc.
    simpl parse_value. rewrite scanstring_escape. reflexivity.
  - apply wf_arr in Hwf.
    assert (Hl : Forall reads_back l).
    { apply (Forall_reads_back (fun x => x)); assumption. }
    destruct fuel as [|n]; [simpl in Hfuel; lia|].
    destruct l as [|x l']; [reflexivity|].
    remember (x :: l') as l eqn:El.
    assert (Hne : l <> []) by (subst l; discriminate).
    assert (Hh : exists c t, join_items (map dumps l) = String c t /\ value_start c = true).
    { subst l. apply join_head, dumps_head. }
    change (dumps (JArr l)) with (String "[" (join_items (map dumps l) ++ "]")) in *.
    set (J := join_items (map dumps l)) in *.
    simpl String.length in Hfuel. rewrite str_length_app in Hfuel.
    change (String "[" (J ++ "]") ++ r)%string with (String "[" ((J ++ "]") ++ r)).
    rewrite str_app_assoc. change ("]" ++ r)%string with (String "]" r).
    destruct (skip_ws_value J (String "]" r) Hh) as (Hs & Hp & _).
    rewrite parse_value_array, Hs, Hp.
    unfold J. rewrite parse_elems_dumps; [reflexivity | exact Hl | exact Hne | ].
    fold J. change (String.length "]") with 1 in Hfuel. lia.
  - apply wf_obj in Hwf. destruct Hwf as [Hnd Hwf].
    assert (Hm : Forall (fun kv => reads_back (snd kv)) m).
    { apply (Forall_reads_back snd); assumption. }
    destruct fuel as [|n]; [simpl in Hfuel; lia|].
    destruct m as [|kv m']; [reflexivity|].
    remember (kv :: m') as m eqn:Em.
    assert (Hne : m <> []) by (subst m; discriminate).
    assert (Hh : exists c t, join_items (map dumps_member m) = String c t
                             /\ value_start c = true).
    { subst m. apply join_head, dumps_member_head. }
    change (dumps (JObj m)) with (String "{" (join_items (map dumps_member m) ++ "}")) in *.
    set (J := join_items (map dumps_member m)) in *.
    simpl String.length in Hfuel. rewrite str_length_app in Hfuel.
    change (String "{" (J ++ "}") ++ r)%string with (String "{" ((J ++ "}") ++ r)).
    rewrite str_app_assoc. change ("}" ++ r)%string with (String "}" r).
    destruct (skip_ws_value J (String "}" r) Hh) as (Hs & _ & Hp).
    rewrite parse_value_object, Hs, Hp.
    unfold J. rewrite parse_members_dumps; [| exact Hm | exact Hne | ].
    2: { fold J. change (String.length "}") with 1 in Hfuel. lia. }
    rewrite dict_of_items_nodup by exact Hnd. reflexivity.
Qed.

(** [json.loads(json.dumps(v)) == v] for every cassette value. *)
Theorem loads_dumps (v : json) : wf v -> loads (dumps v) = Some v.
Proof.
  intros Hwf. unfold loads.
  destruct (skip_ws_value (dumps v) "" (dumps_head v)) as (Hs & _ & _).
  rewrite str_app_nil_r in Hs. rewrite Hs.
  pose proof (parse_value_dumps v Hwf (S (String.length (dumps v))) "") as H.
  rewrite str_app_nil_r in H. rewrite H; [reflexivity | lia | exact I].
Qed.



(** *** decoded values are well formed *)

Ltac case_on_match H :=
  match type of H with
  | context [match ?x with _ => _ end] =>
      lazymatch x with
      | context [match _ with _ => _ end] => fail
      | _ => destruct x eqn:?; try discriminate H
      end
  end.

Lemma literal_wf (lit : string) (v0 : json) (s : string) (v : json) (r : string) :
  wf v0 -> literal lit v0 s = Some (v, r) -> wf v.
Proof.
  unfold literal. intros Hv H. destruct (strip_prefix lit s); [|discriminate].
  now injection H as <- _.
Qed.

Lemma parse_wf (n : nat) :
  (forall s v r, parse_value n s = Some (v, r) -> wf v) /\
  (forall s l r, parse_elems n s = Some (l, r) -> Forall wf l) /\
  (forall s m r, parse_members n s = Some (m, r) -> Forall (fun kv => wf (snd kv)) m).
Proof.
  induction n as [|n (IHv & IHe & IHm)].
  - repeat split; intros; discriminate.
  - repeat split.
    + intros s v r H. cbn [parse_value] in H.
      destruct s as [|c t]; [discriminate|].
      repeat case_on_match H;
        try (eapply literal_wf; [|exact H]; exact I);
        injection H as <- <-;
        first [ exact I
              | apply wf_arr; eapply IHe; eassumption
              | apply wf_obj; split; constructor
              | apply wf_obj; apply (dict_of_items_wf wf); eapply IHm; eassumption ].
    + intros s l r H. cbn [parse_elems] in H.
      repeat case_on_match H; injection H as <- <-.
      * constructor; [eapply IHv; eassumption | constructor].
      * constructor; [eapply IHv; eassumption | eapply IHe; eassumption].
    + intros s m r H. cbn [parse_members] in H.
      repeat case_on_match H; injection H as <- <-.
      * constructor; [simpl; eapply IHv; eassumption | constructor].
      * constructor; [simpl; eapply IHv; eassumption | eapply IHm; eassumption].
Qed.

Theorem loads_wf (s : string) (v : json) : loads s = Some v -> wf v.
Proof.
  unfold loads. intros H.
  destruct (parse_value (S (String.length s)) (skip_ws s)) as [[v' r]|] eqn:E;
    [|discriminate].
  destruct (skip_ws r); [|discriminate].
  injection H as <-. eapply (proj1 (parse_wf _)); exact E.
Qed.


End JsonFacts.

(** ** The monad and the world *)



Lemma filter_none (f p : event -> bool) (evs : list event) :
  (forall e, p e = true -> f e = false) ->
  forallb p evs = true -> filter f evs = [].
Proof.
  intros Hf. induction evs as [|e evs IH]; simpl; [reflexivity|].
  intros H. apply andb_prop in H as [He H].
  rewrite (Hf e He). auto.
Qed.


(** ** C10: the replayed response does not depend on the live request *)

(** C10.  For a stored track response, the playback callback returns the
    same (status, headers, body) triple whatever live request reaches it,
    whatever the network would have answered, and it leaves the world as it
    found it: the reply is a function of the stored response alone. *)
Theorem play_independent_of_request :
  forall (resp : json) (req1 req2 : prepared_request) (ans1 ans2 : answer) (s : state),
    play resp req1 = play resp req2 /\
    run_callback (CbPlay resp) req1 ans1 s = (s, play resp req2) /\
    run_callback (CbPlay resp) req2 ans2 s = (s, play resp req2).
Proof. intros. repeat split. Qed.

(** ** C7: a failing real call *)

Lemma record_reenables (req : prepared_request) (ans : answer) (s : state) :
  started (fst (record req ans s)) = true.
Proof.
  unfold record, bind, try_finally, responses_stop, responses_start, modify.
  simpl.
  match goal with |- context [let (_, _) := ?b in _] => destruct b end.
  reflexivity.
Qed.

(** C7.  When the real call raises [e], the recording callback raises [e]
    itself; interception, suspended for the call, is started again; the
    cassette, the has-recorded flag, the stand-ins and the disk are untouched.
    Interception is started again after every call of the callback, whatever
    the network answered. *)
Theorem record_failure_propagates :
  forall (req : prepared_request) (e : exn) (s : state),
    let (s', r) := run_callback CbRecord req (Raise e) s in
    r = Raise e /\
    started s' = true /\
    cassette s' = cassette s /\
    has_recorded s' = has_recorded s /\
    urls s' = urls s /\
    fs s' = fs s /\
    trace s' = (trace s ++ [EvStop; EvSend req; EvStart])%list /\
    forall ans, started (fst (run_callback CbRecord req ans s)) = true.
Proof.
  intros req e s. simpl.
  repeat split; try reflexivity.
  - now rewrite <- !List.app_assoc.
  - intros ans. apply record_reenables.
Qed.

(** ** The recording callback *)

Ltac unfold_monad :=
  unfold bind, try_finally, responses_stop, responses_start, responses_reset,
    responses_add_callback, session_send, log_info, has_cassette, read_text,
    write_file, modify, lift, get, ret, raise in *.

Ltac unfold_state :=
  unfold emit, set_started, set_has_recorded, set_cassette, set_urls, set_fs in *;
  simpl in *.

Ltac run_m :=
  unfold_monad; unfold _cass_file, _cass_dir, _test_name, path_join in *; unfold_state.

Lemma contains_empty (x : string) : x <> "" -> contains x "" = false.
Proof. destruct x; [congruence | reflexivity]. Qed.

Lemma strip_gzip_ok (h : Cid.t) :
  strip_gzip h = Ok (if contains "gzip" (Cid.get "Content-Encoding" "" h)
                     then without_header "Content-Encoding" h else h).
Proof.
  unfold strip_gzip, Cid.get, Cid.del, without_header.
  destruct (Cid.find "Content-Encoding" h) as [v|]; [now destruct (contains "gzip" v)|].
  reflexivity.
Qed.

Lemma record_success (req : prepared_request) (resp : response) (s : state)
    (l : list json) (hdrs : Cid.t) :
  cassette s = JArr l ->
  strip_gzip (headers resp) = Ok hdrs ->
  record req (Ok resp) s
  = (after_recording req (recorded_track req resp hdrs) l s,
     Ok {| sr_status := JInt (status_code resp);
           sr_headers := HCaseInsensitive hdrs;
           sr_body := snd (decode_body resp) |}).
Proof.
  intros Hc Hh.
  unfold record, bind, try_finally, responses_stop, responses_start, session_send,
    modify, lift, get, ret. simpl.
  rewrite Hh. destruct (decode_body resp) as [body bodys] eqn:Hb. simpl.
  rewrite Hc. simpl. unfold after_recording, recorded_track, recorded_response.
  rewrite Hb. unfold_state. rewrite <- !List.app_assoc. reflexivity.
Qed.

Lemma record_failure (req : prepared_request) (e : exn) (s : state) :
  record req (Raise e) s = (after_failed_recording req s, Raise e).
Proof.
  unfold record, bind, try_finally, responses_stop, responses_start, session_send,
    modify, lift, get, ret, after_failed_recording. unfold_state.
  rewrite <- !List.app_assoc. reflexivity.
Qed.

(** ** Setting up *)

Lemma set_urls_same (s : state) : set_urls (urls s) s = s.
Proof. now destruct s. Qed.

Lemma register_track_spec (track : json) (s : state) :
  register_track track s
  = match standin_of_track track with
    | Ok m => (set_urls (urls s ++ [m]) s, Ok tt)
    | Raise e => (s, Raise e)
    end.
Proof.
  unfold register_track, standin_of_track. unfold_monad.
  destruct (getitem track "request") as [req|e]; [|reflexivity].
  destruct (getitem req "method") as [meth|e]; [|reflexivity].
  destruct (getitem req "url") as [u|e]; [|reflexivity].
  destruct (getitem track "response") as [resp|e]; reflexivity.
Qed.

Lemma for_each_register (tracks : list json) (s : state) :
  for_each tracks register_track s
  = (set_urls (urls s ++ fst (standins_of_tracks tracks)) s,
     snd (standins_of_tracks tracks)).
Proof.
  revert s. induction tracks as [|t tracks IH]; intros s; simpl.
  - unfold ret. now rewrite List.app_nil_r, set_urls_same.
  - unfold bind. rewrite register_track_spec.
    destruct (standin_of_track t) as [m|e]; simpl.
    + rewrite IH. destruct (standins_of_tracks tracks) as [ms r]. simpl.
      unfold set_urls. simpl. now rewrite <- List.app_assoc.
    + now rewrite List.app_nil_r, set_urls_same.
Qed.

Lemma standins_of_tracks_play (tracks : list json) :
  forallb is_play (fst (standins_of_tracks tracks)) = true.
Proof.
  induction tracks as [|t tracks IH]; simpl; [reflexivity|].
  destruct (standin_of_track t) as [m|e] eqn:Em; [|reflexivity].
  destruct (standins_of_tracks tracks) as [ms r]. simpl in *. rewrite IH.
  unfold standin_of_track in Em.
  destruct (getitem t "request") as [req|]; [|discriminate].
  destruct (getitem req "method"); [|discriminate].
  destruct (getitem req "url"); [|discriminate].
  destruct (getitem t "response"); [|discriminate].
  now injection Em as <-.
Qed.

Lemma setup_without_cassette (s : state) :
  dict_get (_cass_file s) (fs s) = None ->
  setup s = (after_setup_recording s, Ok tt).
Proof.
  intros H. unfold setup, setup_recording, after_setup_recording. run_m.
  rewrite H. simpl. rewrite <- !List.app_assoc. reflexivity.
Qed.

Lemma setup_corrupt_cassette (s : state) (data : string) :
  has_recorded s = false ->
  dict_get (_cass_file s) (fs s) = Some data ->
  loads data = None ->
  setup s = (before_load s, Raise ValueError).
Proof.
  intros Hr H Hl. unfold setup, setup_playback, _insert_cassette, before_load.
  run_m. rewrite H. simpl. rewrite Hr. simpl. run_m. rewrite H, Hl.
  rewrite <- !List.app_assoc. reflexivity.
Qed.

Lemma setup_with_cassette (s : state) (data : string) (c : json) :
  has_recorded s = false ->
  dict_get (_cass_file s) (fs s) = Some data ->
  loads data = Some c ->
  setup s
  = match py_iter c with
    | Ok tracks =>
        (after_setup_playback c (fst (standins_of_tracks tracks)) s,
         snd (standins_of_tracks tracks))
    | Raise e => (after_setup_playback c [] s, Raise e)
    end.
Proof.
  intros Hr H Hl. unfold setup, setup_playback, _insert_cassette, rewind_cassette.
  unfold after_setup_playback.
  run_m. rewrite H. simpl. rewrite Hr. simpl. run_m. rewrite H, Hl.
  simpl.
  destruct (py_iter c) as [tracks|e]; simpl.
  - rewrite for_each_register. unfold set_urls. simpl.
    rewrite <- !List.app_assoc. reflexivity.
  - rewrite <- !List.app_assoc. reflexivity.
Qed.

(** ** Matching *)

Lemma startswith_http_before_query (u : string) :
  startswith "http" (before_char "?" u) = startswith "http" u.
Proof.
  unfold startswith.
  destruct u as [|c1 [|c2 [|c3 [|c4 u]]]]; simpl;
    repeat match goal with
           | |- context [Ascii.eqb ?c "?"] =>
               destruct (Ascii.eqb_spec c "?"); subst; simpl
           | |- context [Ascii.eqb ?a ?c] =>
               is_var c; destruct (Ascii.eqb_spec a c); subst; simpl
           end; try reflexivity; try congruence.
Qed.

Lemma find_match_recording (req : prepared_request) :
  find_match [recording_standin] req
  = if recordable req then Some recording_standin else None.
Proof.
  unfold recordable. simpl. unfold method_matches, has_url_match, re_match. simpl.
  rewrite startswith_http_before_query. unfold GET.
  now destruct (String.eqb "GET" (method req)), (startswith "http" (url req)).
Qed.

Lemma find_match_in (urls : list standin) (req : prepared_request) (m : standin) :
  find_match urls req = Some m -> In m urls.
Proof.
  induction urls as [|x urls IH]; simpl; [discriminate|].
  destruct (method_matches x (method req) && has_url_match x (url req)).
  - intros [= ->]. now left.
  - intros H. right. auto.
Qed.

(** ** Calls of the test body *)

Lemma http_call_playback (req : prepared_request) (ans : answer) (s : state) :
  playback_world s ->
  http_call req ans s = (s, replay (urls s) req).
Proof.
  intros [Hs Hp]. unfold http_call, on_request, replay. unfold_monad. rewrite Hs.
  destruct (find_match (urls s) req) as [m|] eqn:Em; [|reflexivity].
  apply find_match_in in Em.
  rewrite forallb_forall in Hp. specialize (Hp m Em). unfold is_play in Hp.
  destruct (si_callback m) as [|resp]; [discriminate|]. simpl.
  now destruct (play resp req).
Qed.

Lemma http_call_unrecordable (req : prepared_request) (ans : answer) (s : state) :
  recording_world s -> recordable req = false ->
  http_call req ans s = (s, Raise (refused req)).
Proof.
  intros (Hs & Hu & _) Hr. unfold http_call, on_request. unfold_monad.
  rewrite Hs, Hu, find_match_recording, Hr. reflexivity.
Qed.

Lemma http_call_recorded (req : prepared_request) (resp : response) (s : state)
    (l : list json) :
  started s = true -> urls s = [recording_standin] -> cassette s = JArr l ->
  recordable req = true ->
  exists hdrs,
    strip_gzip (headers resp) = Ok hdrs /\
    http_call req (Ok resp) s
    = (after_recording req (recorded_track req resp hdrs) l s,
       Ok (Stubbed {| sr_status := JInt (status_code resp);
                      sr_headers := HCaseInsensitive hdrs;
                      sr_body := snd (decode_body resp) |})).
Proof.
  intros Hs Hu Hc Hr. eexists. split; [apply strip_gzip_ok|].
  unfold http_call, on_request. unfold bind at 1, get. rewrite Hs.
  unfold bind at 1. unfold bind at 1. unfold get.
  rewrite Hu, find_match_recording, Hr. simpl run_callback.
  rewrite (record_success req resp s l _ Hc (strip_gzip_ok _)). reflexivity.
Qed.

Lemma http_call_record_failed (req : prepared_request) (e : exn) (s : state) :
  started s = true -> urls s = [recording_standin] -> recordable req = true ->
  http_call req (Raise e) s = (after_failed_recording req s, Raise e).
Proof.
  intros Hs Hu Hr.
  unfold http_call, on_request. unfold bind at 1, get. rewrite Hs.
  unfold bind at 1. unfold bind at 1. unfold get.
  rewrite Hu, find_match_recording, Hr. simpl run_callback.
  rewrite record_failure. reflexivity.
Qed.


Lemma run_test_playback_answers
    (calls calls' : list (prepared_request * answer)) (s : state) :
  playback_world s -> map fst calls = map fst calls' ->
  run_test calls s = run_test calls' s.
Proof.
  intros Hw. revert calls'.
  induction calls as [|[req ans] calls IH]; intros [|[req' ans'] calls'] E;
    try discriminate E; [reflexivity|].
  simpl in E. injection E as -> E. simpl.
  rewrite (http_call_playback req' ans s Hw), (http_call_playback req' ans' s Hw).
  now rewrite (IH calls' E).
Qed.


(** ** Traces *)




Lemma teardown_spec (s : state) : teardown s = (after_teardown s, Ok tt).
Proof.
  unfold teardown, after_teardown. run_m.
  destruct (has_recorded s); run_m; rewrite <- !List.app_assoc; reflexivity.
Qed.

Lemma setup_playback_trace (s : state) :
  exists evs,
    trace (fst (setup_playback s)) = (trace s ++ EvLog "playing back ..." :: evs)%list /\
    forallb is_load_event evs = true.
Proof.
  unfold setup_playback, _insert_cassette, rewind_cassette. run_m.
  destruct (has_recorded s); simpl.
  - run_m. destruct (py_iter (cassette s)) as [tracks|e]; simpl.
    + rewrite for_each_register. simpl. exists [EvReset].
      now rewrite <- !List.app_assoc.
    + exists [EvReset]. now rewrite <- !List.app_assoc.
  - run_m.
    match goal with |- context [dict_get ?p (fs s)] => destruct (dict_get p (fs s)) as [data|] end.
    + destruct (loads data) as [c|]; simpl.
      * run_m. destruct (py_iter c) as [tracks|e]; simpl.
        -- rewrite for_each_register. simpl. eexists [EvRead _; EvReset].
           now rewrite <- !List.app_assoc.
        -- eexists [EvRead _; EvReset]. now rewrite <- !List.app_assoc.
      * eexists [EvRead _]. now rewrite <- !List.app_assoc.
    + eexists [EvRead _]. now rewrite <- !List.app_assoc.
Qed.

Lemma setup_trace (s : state) :
  exists evs,
    trace (fst (setup s))
    = (trace s ++ [EvStart; EvExists (_cass_file s);
                   EvLog (if cassette_present s then "playing back ..." else "recording ...")]
               ++ evs)%list /\
    forallb is_load_event evs = true.
Proof.
  unfold cassette_present.
  destruct (dict_get (_cass_file s) (fs s)) as [data|] eqn:E.
  - unfold setup. unfold bind at 1. unfold responses_start, modify.
    unfold bind at 1. unfold has_cassette. unfold bind at 1, get.
    unfold bind at 1. unfold modify, ret.
    set (s1 := emit (EvExists _) _).
    assert (E1 : dict_get (_cass_file (emit EvStart (set_started true s)))
                   (fs (emit EvStart (set_started true s))) = Some data) by exact E.
    rewrite E1.
    change ((if negb true then setup_recording else setup_playback) s1)
      with (setup_playback s1).
    destruct (setup_playback_trace s1) as (evs & H & F).
    exists evs. split; [|exact F].
    change (negb true) with false. cbv iota. rewrite H. subst s1. simpl.
    now rewrite <- ?List.app_assoc.
  - rewrite (setup_without_cassette s E). simpl. exists [EvReset].
    now rewrite <- ?List.app_assoc.
Qed.

Lemma setup_world (s : state) :
  has_recorded s = false -> urls s = [] ->
  if cassette_present s then playback_world (fst (setup s)) /\
                             has_recorded (fst (setup s)) = false /\
                             fs (fst (setup s)) = fs s
  else setup s = (after_setup_recording s, Ok tt).
Proof.
  intros Hr Hu. unfold cassette_present.
  destruct (dict_get (_cass_file s) (fs s)) as [data|] eqn:E.
  - destruct (loads data) as [c|] eqn:El.
    + rewrite (setup_with_cassette s data c Hr E El).
      destruct (py_iter c) as [tracks|e]; simpl.
      * repeat split; auto. apply standins_of_tracks_play.
      * repeat split; auto.
    + rewrite (setup_corrupt_cassette s data Hr E El). simpl.
      repeat split; auto. simpl. now rewrite Hu.
  - now apply setup_without_cassette.
Qed.

(** ** C5: the mode is decided once, at setup *)


(** ** C9: a corrupt cassette *)

(** C9.  When the cassette file exists and does not hold valid JSON, [setup]
    of a recorder that has recorded nothing raises the decoding error; the
    last thing it did is read the file, and the registered stand-ins are the
    ones from before: none for a new recorder. *)
Theorem corrupt_cassette_fails_setup :
  forall (s : state) (data : string),
    has_recorded s = false ->
    dict_get (_cass_file s) (fs s) = Some data ->
    loads data = None ->
    snd (setup s) = Raise ValueError /\
    urls (fst (setup s)) = urls s /\
    cassette (fst (setup s)) = cassette s /\
    trace (fst (setup s))
      = (trace s ++ [EvStart; EvExists (_cass_file s); EvLog "playing back ...";
                     EvRead (_cass_file s)])%list.
Proof.
  intros s data Hr H Hl. rewrite (setup_corrupt_cassette s data Hr H Hl).
  repeat split.
Qed.

Lemma corrupt_cassette_fails_setup_witness :
  has_recorded (sample_recorder [(sample_cassette_path, "{not json")]) = false /\
  dict_get (_cass_file (sample_recorder [(sample_cassette_path, "{not json")]))
    [(sample_cassette_path, "{not json")] = Some "{not json" /\
  loads "{not json" = None /\
  snd (setup (sample_recorder [(sample_cassette_path, "{not json")])) = Raise ValueError /\
  urls (fst (setup (sample_recorder [(sample_cassette_path, "{not json")]))) = [].
Proof.
  split; [reflexivity|]. split; [reflexivity|]. split; [reflexivity|].
  pose proof (corrupt_cassette_fails_setup
                (sample_recorder [(sample_cassette_path, "{not json")]) "{not json"
                eq_refl eq_refl eq_refl) as (H1 & H2 & _).
  split; [exact H1 | exact H2].
Defined.

(** ** C1: what the recording stand-in answers *)

(** C1, as stated, fails: after [setup] without a cassette file, a POST
    request matches no stand-in; it is refused and the recording callback is
    not run (nothing is sent, nothing is recorded). *)
Lemma recording_standin_misses_post :
  let s1 := fst (setup (sample_recorder [])) in
  find_match (urls s1) sample_post = None /\
  http_call sample_post (Ok sample_json_response) s1 = (s1, Raise (refused sample_post)) /\
  ~ (forall req, exists m, find_match (urls s1) req = Some m /\ si_callback m = CbRecord).
Proof.
  simpl. repeat split.
  intros H. destruct (H sample_post) as (m & Hm & _). discriminate Hm.
Qed.

(** C1, amended.  Without a cassette file, [setup] leaves exactly one
    stand-in: the recording callback, registered for the method GET and the
    pattern [http.*].  It answers a request exactly when the method is GET and
    the URL starts with [http]; every such request runs the recording
    callback, and any other request is refused. *)
Theorem recording_standin_answers_get :
  forall (s : state),
    cassette_present s = false ->
    let s1 := fst (setup s) in
    urls s1 = [recording_standin] /\
    (forall req,
        find_match (urls s1) req = if recordable req then Some recording_standin else None) /\
    (forall req ans,
        recordable req = true ->
        http_call req ans s1
        = (let (s', r) := record req ans s1 in
           (s', match r with Ok x => Ok (Stubbed x) | Raise e => Raise e end))) /\
    (forall req ans,
        recordable req = false -> http_call req ans s1 = (s1, Raise (refused req))).
Proof.
  intros s Hp s1.
  assert (E : setup s = (after_setup_recording s, Ok tt)).
  { apply setup_without_cassette. unfold cassette_present in Hp.
    now destruct (dict_get (_cass_file s) (fs s)). }
  assert (Hu : urls s1 = [recording_standin]) by (unfold s1; now rewrite E).
  assert (Hs : started s1 = true) by (unfold s1; now rewrite E).
  repeat split.
  - exact Hu.
  - intros req. rewrite Hu. apply find_match_recording.
  - intros req ans Hr. unfold http_call, on_request.
    unfold bind at 1, get. rewrite Hs.
    unfold bind at 1. unfold bind at 1. unfold get.
    rewrite Hu, find_match_recording, Hr. simpl run_callback.
    unfold bind, ret. now destruct (record req ans s1) as [s' [x|e]].
  - intros req ans Hr. unfold http_call, on_request. unfold_monad.
    now rewrite Hs, Hu, find_match_recording, Hr.
Qed.

Lemma recording_standin_answers_get_witness :
  cassette_present (sample_recorder []) = false /\
  recordable sample_get = true /\
  http_call sample_get (Ok sample_json_response) (fst (setup (sample_recorder [])))
  = (let (s', r) := record sample_get (Ok sample_json_response)
                      (fst (setup (sample_recorder []))) in
     (s', match r with Ok x => Ok (Stubbed x) | Raise e => Raise e end)).
Proof.
  split; [reflexivity|]. split; [reflexivity|].
  apply (recording_standin_answers_get (sample_recorder []) eq_refl).
  reflexivity.
Defined.

(** ** C6: the cassette file is written at most once, at teardown *)


Lemma writes_load_events (evs : list event) :
  forallb is_load_event evs = true -> writes evs = [].
Proof. apply filter_none. now intros []. Qed.

Lemma writes_app (a b : list event) : writes (a ++ b) = (writes a ++ writes b)%list.
Proof. apply filter_app. Qed.

Lemma writes_setup (s : state) : writes (trace (fst (setup s))) = writes (trace s).
Proof.
  destruct (setup_trace s) as (evs & H & F). rewrite H.
  rewrite !writes_app, (writes_load_events evs F).
  simpl. now rewrite List.app_nil_r.
Qed.


(** ** C8: playback performs no real call *)

Lemma sends_app (a b : list event) : sends (a ++ b) = (sends a ++ sends b)%list.
Proof. apply filter_app. Qed.

Lemma sends_setup (s : state) : sends (trace (fst (setup s))) = sends (trace s).
Proof.
  destruct (setup_trace s) as (evs & H & F). rewrite H, !sends_app.
  assert (E : sends evs = []) by (apply (filter_none _ is_load_event); [now intros [] | exact F]).
  rewrite E. simpl. now rewrite List.app_nil_r.
Qed.

Lemma run_test_replay (calls : list (prepared_request * answer)) (s : state) :
  playback_world s ->
  run_test calls s = (s, map (fun call => replay (urls s) (fst call)) calls).
Proof.
  intros Hw. induction calls as [|[req ans] calls IH]; simpl; [reflexivity|].
  now rewrite (http_call_playback req ans s Hw), IH.
Qed.

(** C8.  In a session of a new recorder whose cassette file exists, the test
    body leaves the world exactly as [setup] left it, whatever calls it makes:
    no real call is sent, during the test body or at [teardown].  Every
    stand-in is a playback one, each call is answered by [replay] from the
    stand-ins alone, and the outcomes do not depend on what the network would
    have answered. *)
Theorem playback_never_calls_network :
  forall (dirpath node_name : string) (basedir_arg name_arg : option string)
         (disk : list (string * string)) (calls : list (prepared_request * answer)),
    let s0 := init dirpath node_name basedir_arg name_arg disk in
    cassette_present s0 = true ->
    let s1 := fst (setup s0) in
    run_test calls s1 = (s1, map (fun call => replay (urls s1) (fst call)) calls) /\
    sends (trace (fst (run_test calls s1))) = [] /\
    sends (trace (fst (session s0 calls))) = [] /\
    forallb is_play (urls s1) = true /\
    (forall calls', map fst calls' = map fst calls ->
                    snd (run_test calls' s1) = snd (run_test calls s1)).
Proof.
  intros dirpath node_name basedir_arg name_arg disk calls s0 Hp s1.
  pose proof (setup_world s0 eq_refl eq_refl) as Hw. fold s1 in Hw. rewrite Hp in Hw.
  destruct Hw as (Hw & Hr & Hf).
  assert (S1 : sends (trace s1) = []) by (unfold s1; now rewrite sends_setup).
  assert (E : run_test calls s1
              = (s1, map (fun call => replay (urls s1) (fst call)) calls))
    by now apply run_test_replay.
  repeat split.
  - exact E.
  - now rewrite E.
  - unfold session. fold s1. rewrite E, teardown_spec. simpl.
    rewrite sends_app, S1. now destruct (has_recorded s1).
  - apply Hw.
  - intros calls' Hc. now rewrite (run_test_playback_answers calls' calls s1 Hw Hc).
Qed.

Lemma playback_never_calls_network_witness :
  cassette_present (sample_recorder sample_disk) = true /\
  sends (trace (fst (session (sample_recorder sample_disk)
                       [(sample_get, Raise (TransportError "unreachable"));
                        (sample_post, Ok sample_text_response)]))) = [].
Proof.
  split; [reflexivity|].
  apply (playback_never_calls_network "/repo/tests" "test_foo" None None sample_disk
           [(sample_get, Raise (TransportError "unreachable"));
            (sample_post, Ok sample_text_response)] eq_refl).
Defined.

(** ** C4: the content-encoding header is stripped *)

Lemma find_without_header (key k : string) (h : Cid.t) :
  lower k = lower key -> Cid.find k (without_header key h) = None.
Proof.
  intros Hk. unfold without_header.
  induction h as [|kv h IH]; simpl; [reflexivity|].
  destruct (Cid.same_key key kv) eqn:E; simpl; [exact IH|].
  unfold Cid.same_key in *. rewrite Hk, E. exact IH.
Qed.

Lemma in_without_header (key : string) (h : Cid.t) (kv : string * string) :
  In kv (without_header key h) -> lower (fst kv) <> lower key.
Proof.
  unfold without_header. intros H. apply filter_In in H as [_ H].
  apply negb_true_iff in H. unfold Cid.same_key in H.
  now apply String.eqb_neq.
Qed.

Lemma dict_get_none {A} (k : string) (m : list (string * A)) :
  ~ In k (map fst m) -> dict_get k m = None.
Proof.
  induction m as [|[k' v] m IH]; simpl; intros H; [reflexivity|].
  destruct (String.eqb_spec k k') as [->|_].
  - exfalso. apply H. now left.
  - apply IH. intros Hin. apply H. now right.
Qed.

Lemma dict_of_items_keys {A} (items : list (string * A)) (k : string) :
  In k (map fst (dict_of_items items)) -> In k (map fst items).
Proof.
  unfold dict_of_items.
  assert (G : forall acc,
    NoDup (map fst acc) ->
    In k (map fst (fold_left (fun d kv => dict_set (fst kv) (snd kv) d) items acc)) ->
    In k (map fst acc) \/ In k (map fst items)).
  { induction items as [|[k' v] items IH]; intros acc Hnd H; simpl in *.
    - now left.
    - destruct (JsonFacts.dict_set_keys k' v acc Hnd) as [Hnd' Hsub].
      destruct (IH _ Hnd' H) as [Hin|Hin].
      + destruct (Hsub _ Hin) as [->|Hin']; [right; now left | now left].
      + right. now right. }
  intros H. destruct (G [] (NoDup_nil _) H) as [[]|Hin]. exact Hin.
Qed.

Lemma dict_of_headers_keys (h : Cid.t) (k : string) (hs : list (string * json)) :
  dict_of_headers h = JObj hs -> In k (map fst hs) -> exists v, In (k, v) h.
Proof.
  unfold dict_of_headers, Cid.items. intros [= <-] H.
  apply dict_of_items_keys in H. rewrite map_map in H. simpl in H.
  apply in_map_iff in H as ([k' v] & E & Hin). simpl in E. subst k'. now exists v.
Qed.

(** C4.  When the live response carries a Content-Encoding header (under any
    capitalisation) whose value contains [gzip], the recording callback
    succeeds, and neither the headers it hands back to the caller nor the
    headers of the track it appends hold a key that is Content-Encoding up to
    case. *)
Theorem gzip_content_encoding_stripped :
  forall (s : state) (l : list json) (req : prepared_request) (resp : response)
         (v : string),
    cassette s = JArr l ->
    Cid.find "Content-Encoding" (headers resp) = Some v ->
    contains "gzip" v = true ->
    exists hdrs bodys track recorded hs,
      snd (record req (Ok resp) s)
        = Ok {| sr_status := JInt (status_code resp);
                sr_headers := HCaseInsensitive hdrs;
                sr_body := bodys |} /\
      cassette (fst (record req (Ok resp) s)) = JArr (l ++ [track]) /\
      getitem track "response" = Ok recorded /\
      getitem recorded "headers" = Ok (JObj hs) /\
      (forall k, lower k = "content-encoding" -> Cid.find k hdrs = None) /\
      (forall k x, In (k, x) hdrs -> lower k <> "content-encoding") /\
      (forall k, lower k = "content-encoding" -> dict_get k hs = None).
Proof.
  intros s l req resp v Hc Hf Hg.
  set (hdrs := without_header "Content-Encoding" (headers resp)).
  assert (Hs : strip_gzip (headers resp) = Ok hdrs).
  { rewrite strip_gzip_ok. unfold Cid.get. now rewrite Hf, Hg. }
  rewrite (record_success req resp s l hdrs Hc Hs). simpl.
  exists hdrs, (snd (decode_body resp)), (recorded_track req resp hdrs),
    (recorded_response resp hdrs).
  unfold dict_of_headers. eexists. repeat split.
  - intros k Hk. now apply find_without_header.
  - intros k x Hin Hk. apply in_without_header in Hin. now apply Hin.
  - intros k Hk. apply dict_get_none. intros Hin.
    destruct (dict_of_headers_keys hdrs k _ eq_refl Hin) as (x & Hx).
    apply in_without_header in Hx. now apply Hx.
Qed.

Lemma gzip_content_encoding_stripped_witness :
  cassette sample_recording_world = JArr [] /\
  Cid.find "Content-Encoding" (headers sample_json_response) = Some "gzip" /\
  contains "gzip" "gzip" = true /\
  exists hdrs bodys track recorded hs,
    snd (record sample_get (Ok sample_json_response) sample_recording_world)
      = Ok {| sr_status := JInt 200; sr_headers := HCaseInsensitive hdrs;
              sr_body := bodys |} /\
    cassette (fst (record sample_get (Ok sample_json_response) sample_recording_world))
      = JArr [track] /\
    getitem track "response" = Ok recorded /\
    getitem recorded "headers" = Ok (JObj hs) /\
    (forall k, lower k = "content-encoding" -> Cid.find k hdrs = None) /\
    (forall k x, In (k, x) hdrs -> lower k <> "content-encoding") /\
    (forall k, lower k = "content-encoding" -> dict_get k hs = None).
Proof.
  split; [reflexivity|]. split; [reflexivity|]. split; [reflexivity|].
  exact (gzip_content_encoding_stripped sample_recording_world [] sample_get
           sample_json_response "gzip" eq_refl eq_refl eq_refl).
Defined.

(** ** C3: what is recorded is what is replayed *)

Lemma decode_body_spec (resp : response) :
  decode_body resp
  = (decoded_body resp,
     match loads (text resp) with Some v => dumps v | None => text resp end).
Proof.
  unfold decode_body, decoded_body, response_json.
  now destruct (loads (text resp)).
Qed.

Lemma decoded_body_wf (resp : response) : wf (decoded_body resp).
Proof.
  unfold decoded_body. destruct (loads (text resp)) as [v|] eqn:E; [|exact I].
  eapply JsonFacts.loads_wf; exact E.
Qed.

Lemma cid_wf_without (key : string) (h : Cid.t) :
  Cid.wf h -> Cid.wf (without_header key h).
Proof.
  unfold Cid.wf, without_header. induction h as [|kv h IH]; simpl; intros H.
  - constructor.
  - inversion H as [|? ? Hn Hd]; subst.
    destruct (negb (Cid.same_key key kv)); simpl; [|auto].
    constructor; [|auto]. intros Hin. apply Hn.
    apply in_map_iff in Hin as (x & Ex & Hx). apply filter_In in Hx as [Hx _].
    apply in_map_iff. now exists x.
Qed.

Lemma dict_of_headers_wf (h : Cid.t) :
  Cid.wf h -> dict_of_headers h = JObj (header_members h).
Proof.
  unfold Cid.wf, dict_of_headers, header_members, Cid.items. intros H.
  rewrite JsonFacts.dict_of_items_nodup; [reflexivity|].
  rewrite map_map. simpl.
  apply (NoDup_map_inv lower). now rewrite map_map.
Qed.



(** ** C2: record, persist, replay *)

Lemma quote_not_json_text (t : string) : loads t = None -> quote t <> t.
Proof.
  intros Hn E.
  pose proof (JsonFacts.loads_dumps (JStr t) I) as H. simpl in H.
  rewrite E, Hn in H. discriminate H.
Qed.

(** A body that is not JSON comes back from playback quoted and escaped, so a
    replayed text body never equals the recorded one. *)
Lemma text_body_replayed_quoted (req req' : prepared_request) (resp : response) (hdrs : Cid.t) :
  loads (text resp) = None ->
  snd (decode_body resp) = text resp /\
  (exists r, play (recorded_response resp hdrs) req' = Ok r /\
             sr_body r = quote (text resp)) /\
  quote (text resp) <> text resp.
Proof.
  intros Hn. rewrite decode_body_spec. simpl. rewrite Hn. split; [reflexivity|].
  split; [|now apply quote_not_json_text].
  eexists. split; [reflexivity|]. simpl. rewrite decode_body_spec. simpl.
  unfold decoded_body. now rewrite Hn.
Qed.

(** The scenario of the specification: one GET answered with a JSON body is
    recorded and written; the next session replays it with no real call. *)
Example scenario_record_then_replay :
  let calls := [(sample_get, Ok sample_json_response)] in
  let (w1, recorded) := session (sample_recorder []) calls in
  let (w2, replayed) := session (sample_recorder (fs w1)) calls in
  option_map loads (dict_get sample_cassette_path (fs w1)) = Some (Some sample_cassette) /\
  map reply_body recorded = [Some ("{" ++ quote "id" ++ ": 1}")] /\
  map reply_body replayed = [Some ("{" ++ quote "id" ++ ": 1}")] /\
  sends (trace w2) = [].
Proof. vm_compute. repeat split. Qed.

(** C2 fails on the code.  A first session without a cassette file records
    one GET whose live body is the text [hello] and writes the cassette; a
    second session on the resulting disk replays it without any real call.
    The recorded reply has the body [hello]; the replayed reply has the same
    status and header entries, but its body is the JSON string literal of
    [hello], quotes included. *)
Theorem text_body_replay_differs :
  let (w1, recorded) := session (sample_recorder []) sample_text_calls in
  let (w2, replayed) := session (sample_recorder (fs w1)) sample_text_calls in
  map reply_body recorded = [Some "hello"] /\
  map reply_body replayed = [Some (quote "hello")] /\
  map reply_body replayed <> map reply_body recorded /\
  length (writes (trace w1)) = 1 /\
  sends (trace w2) = [] /\
  writes (trace w2) = [].
Proof.
  vm_compute. repeat split; try reflexivity. discriminate.
Qed.

(** *** what a session of successful calls records *)

Lemma run_test_exchanges (exchanges : list exchange) :
  forall (s : state) (l : list json),
    started s = true -> urls s = [recording_standin] -> cassette s = JArr l ->
    Forall (fun e => recordable (fst e) = true) exchanges ->
    exists s2,
      run_test (live_calls exchanges) s = (s2, map exchange_reply exchanges) /\
      cassette s2 = JArr (l ++ map exchange_track exchanges) /\
      has_recorded s2 = (has_recorded s || negb (Nat.eqb (length exchanges) 0)) /\
      fs s2 = fs s /\ basedir s2 = basedir s /\ cassette_name s2 = cassette_name s.
Proof.
  induction exchanges as [|[req resp] exchanges IH]; intros s l Hs Hu Hc Hall.
  - exists s. simpl. rewrite List.app_nil_r, orb_false_r. repeat split; auto.
  - inversion Hall as [|? ? Hr Hrest]; subst. simpl in Hr.
    destruct (http_call_recorded req resp s l Hs Hu Hc Hr) as (hdrs & Hh & Hcall).
    rewrite strip_gzip_ok in Hh. injection Hh as <-. fold (cleaned_headers resp) in Hcall.
    set (s1 := after_recording req (recorded_track req resp (cleaned_headers resp)) l s) in *.
    destruct (IH s1 (l ++ [recorded_track req resp (cleaned_headers resp)])%list
                eq_refl Hu eq_refl Hrest) as (s2 & H1 & H2 & H3 & H4 & H5 & H6).
    exists s2. simpl. rewrite Hcall, H1. repeat split; auto.
    + rewrite H2, <- List.app_assoc. reflexivity.
    + rewrite H3. simpl. now rewrite orb_true_r.
Qed.

(** *** recorded tracks are well-formed cassette values *)

Lemma wf_obj_intro (m : list (string * json)) :
  NoDup (map fst m) -> Forall (fun kv => wf (snd kv)) m -> wf (JObj m).
Proof. intros H1 H2. apply JsonFacts.wf_obj. now split. Qed.

Lemma dict_of_headers_is_wf (h : Cid.t) : wf (dict_of_headers h).
Proof.
  unfold dict_of_headers.
  destruct (JsonFacts.dict_of_items_wf wf
              (map (fun kv => (fst kv, JStr (snd kv))) (Cid.items h))) as [H1 H2].
  - apply Forall_forall. intros kv Hin.
    apply in_map_iff in Hin as (x & <- & _). exact I.
  - now apply wf_obj_intro.
Qed.

Ltac nodup_literals :=
  repeat (constructor; [simpl; intuition discriminate|]); constructor.

Ltac each_value :=
  repeat (apply Forall_cons; [cbn [snd]|]); try apply Forall_nil.

Lemma recorded_track_wf (req : prepared_request) (resp : response) (hdrs : Cid.t) :
  wf (recorded_track req resp hdrs).
Proof.
  unfold recorded_track, recorded_response, track_request.
  apply wf_obj_intro; [simpl; nodup_literals | each_value].
  - apply wf_obj_intro; [simpl; nodup_literals | each_value]; try exact I.
    + apply dict_of_headers_is_wf.
    + now destruct (req_body req).
  - apply wf_obj_intro; [simpl; nodup_literals | each_value]; try exact I.
    + apply dict_of_headers_is_wf.
    + rewrite decode_body_spec. apply decoded_body_wf.
Qed.

Lemma cassette_of_exchanges_wf (exchanges : list exchange) :
  wf (JArr (map exchange_track exchanges)).
Proof.
  apply JsonFacts.wf_arr, Forall_forall. intros t Hin.
  apply in_map_iff in Hin as (e & <- & _). apply recorded_track_wf.
Qed.

(** *** the stand-ins of a recorded cassette *)

Lemma standins_of_exchange_tracks (exchanges : list exchange) :
  standins_of_tracks (map exchange_track exchanges)
  = (map exchange_standin exchanges, Ok tt).
Proof.
  induction exchanges as [|e exchanges IH]; simpl; [reflexivity|].
  now rewrite IH.
Qed.

Lemma exchange_standin_matches (e : exchange) (req : prepared_request) :
  method_matches (exchange_standin e) (method req)
  && has_url_match (exchange_standin e) (url req) = true
  <-> request_key e = (method req, url req).
Proof.
  unfold exchange_standin, playback_standin, method_matches, has_url_match,
    has_strict_url_match, request_key. simpl.
  rewrite andb_true_iff, !String.eqb_eq. split.
  - now intros [-> ->].
  - now intros [= -> ->].
Qed.

Lemma find_match_exchange (exchanges : list exchange) (e : exchange) :
  NoDup (map request_key exchanges) -> In e exchanges ->
  find_match (map exchange_standin exchanges) (fst e) = Some (exchange_standin e).
Proof.
  induction exchanges as [|e0 exchanges IH]; intros Hnd Hin; [contradiction|].
  inversion Hnd as [|? ? Hnotin Hnd']; subst. simpl.
  destruct (method_matches (exchange_standin e0) (method (fst e))
            && has_url_match (exchange_standin e0) (url (fst e))) eqn:Em.
  - apply exchange_standin_matches in Em.
    destruct Hin as [->|Hin]; [reflexivity|].
    exfalso. apply Hnotin. change (method (fst e), url (fst e)) with (request_key e) in Em.
    rewrite Em. now apply in_map.
  - destruct Hin as [->|Hin]; [|now apply IH].
    exfalso. assert (Ht : method_matches (exchange_standin e) (method (fst e))
                          && has_url_match (exchange_standin e) (url (fst e)) = true)
      by now apply exchange_standin_matches.
    rewrite Ht in Em. discriminate.
Qed.

Lemma replay_exchange (exchanges : list exchange) (e : exchange) :
  NoDup (map request_key exchanges) -> In e exchanges ->
  replay (map exchange_standin exchanges) (fst e)
  = Ok (Stubbed {| sr_status := JInt (status_code (snd e));
                   sr_headers := HValue (dict_of_headers (cleaned_headers (snd e)));
                   sr_body := dumps (decoded_body (snd e)) |}).
Proof.
  intros Hnd Hin. unfold replay. rewrite (find_match_exchange exchanges e Hnd Hin).
  simpl. now rewrite decode_body_spec.
Qed.

Lemma same_reply_exchange (e : exchange) :
  faithful e ->
  same_reply (exchange_reply e)
    (Ok (Stubbed {| sr_status := JInt (status_code (snd e));
                    sr_headers := HValue (dict_of_headers (cleaned_headers (snd e)));
                    sr_body := dumps (decoded_body (snd e)) |})).
Proof.
  intros (_ & (v & Hv) & Hw). unfold same_reply, exchange_reply.
  cbn [sr_status sr_headers sr_body].
  rewrite dict_of_headers_wf.
  - split; [reflexivity|]. split; [reflexivity|].
    rewrite decode_body_spec. unfold decoded_body. simpl. now rewrite Hv.
  - unfold cleaned_headers.
    destruct (contains "gzip" _); [now apply cid_wf_without | exact Hw].
Qed.

Lemma dict_get_set_same {A} (k : string) (v : A) (m : list (string * A)) :
  dict_get k (dict_set k v m) = Some v.
Proof.
  induction m as [|[k' v'] m IH]; simpl.
  - now rewrite String.eqb_refl.
  - destruct (String.eqb k k') eqn:E; simpl; [now rewrite String.eqb_refl|].
    now rewrite E.
Qed.

Lemma Forall2_map_in {A B} (R : B -> B -> Prop) (f g : A -> B) (l : list A) :
  (forall a, In a l -> R (f a) (g a)) -> Forall2 R (map f l) (map g l).
Proof.
  induction l as [|a l IH]; intros H; simpl; constructor.
  - apply H. now left.
  - apply IH. intros x Hx. apply H. now right.
Qed.

Lemma cass_file_init (dirpath node_name : string) (b c : option string)
    (disk disk' : list (string * string)) :
  _cass_file (init dirpath node_name b c disk') = _cass_file (init dirpath node_name b c disk).
Proof. reflexivity. Qed.

Lemma cass_file_fields (s s' : state) :
  basedir s = basedir s' -> cassette_name s = cassette_name s' ->
  _cass_file s = _cass_file s'.
Proof.
  intros H1 H2. unfold _cass_file, _cass_dir, _test_name. now rewrite H1, H2.
Qed.

(** The part of C2 the code does satisfy.  A session without a cassette file
    records a sequence of exchanges with distinct (method, URL) keys, each a
    GET to an http URL answered with a JSON body; a second session on the disk
    the first one left replays the same calls without any real call, and every
    replayed reply has the status, the header entries and the body string of
    the recorded one. *)
Theorem json_exchanges_replay_identically :
  forall (dirpath node_name : string) (basedir_arg name_arg : option string)
         (disk : list (string * string)) (exchanges : list exchange),
    let s0 := init dirpath node_name basedir_arg name_arg disk in
    cassette_present s0 = false ->
    Forall faithful exchanges ->
    NoDup (map request_key exchanges) ->
    let (w1, recorded) := session s0 (live_calls exchanges) in
    let (w2, replayed) :=
      session (init dirpath node_name basedir_arg name_arg (fs w1)) (live_calls exchanges) in
    recorded = map exchange_reply exchanges /\
    Forall2 same_reply recorded replayed /\
    sends (trace w2) = [] /\ writes (trace w2) = [].
Proof.
  intros dirpath node_name basedir_arg name_arg disk exchanges s0 Hp Hf Hnd.
  assert (Hfile : dict_get (_cass_file s0) (fs s0) = None).
  { unfold cassette_present in Hp. now destruct (dict_get (_cass_file s0) (fs s0)). }
  assert (Hrec : Forall (fun e => recordable (fst e) = true) exchanges).
  { eapply Forall_impl; [|exact Hf]. now intros e (H & _). }
  unfold session at 1. rewrite (setup_without_cassette s0 Hfile).
  cbn [fst].
  destruct (run_test_exchanges exchanges (after_setup_recording s0) []
              eq_refl eq_refl eq_refl Hrec) as (s2 & Hrun & Hc & Hr & Hfs & Hb & Hn).
  rewrite Hrun, teardown_spec. cbn [fst].
  destruct exchanges as [|e0 exchanges'].
  - (* nothing was recorded: the second session records nothing either *)
    simpl in Hr, Hfs. cbn [after_teardown fs]. rewrite Hr, Hfs.
    unfold session. change (fs (after_setup_recording s0)) with disk.
    fold s0. rewrite (setup_without_cassette s0 Hfile). simpl.
    repeat split; constructor.
  - remember (e0 :: exchanges') as exchanges eqn:Eex.
    assert (Hr' : has_recorded s2 = true) by (rewrite Hr, Eex; reflexivity).
    simpl in Hc.
    set (data := dumps (JArr (map exchange_track exchanges))).
    set (s0' := init dirpath node_name basedir_arg name_arg (fs (after_teardown s2))).
    assert (Hpath : _cass_file s0' = _cass_file s2).
    { apply cass_file_fields; [now rewrite Hb | now rewrite Hn]. }
    assert (Hget : dict_get (_cass_file s0') (fs s0') = Some data).
    { rewrite Hpath. unfold s0'. cbn [init fs after_teardown]. rewrite Hr', Hc.
      apply dict_get_set_same. }
    assert (Hload : loads data = Some (JArr (map exchange_track exchanges))).
    { apply JsonFacts.loads_dumps, cassette_of_exchanges_wf. }
    unfold session.
    rewrite (setup_with_cassette s0' data _ eq_refl Hget Hload).
    cbn [py_iter]. rewrite standins_of_exchange_tracks. cbn [fst snd].
    set (s1' := after_setup_playback _ _ s0').
    assert (Hw : playback_world s1').
    { split; [reflexivity|]. unfold s1'. cbn [urls after_setup_playback].
      rewrite <- (standins_of_tracks_play (map exchange_track exchanges)).
      now rewrite standins_of_exchange_tracks. }
    rewrite (run_test_replay (live_calls exchanges) s1' Hw), teardown_spec.
    split; [reflexivity|]. split.
    + unfold live_calls. rewrite map_map. cbn [fst].
      apply Forall2_map_in. intros e Hin.
      unfold s1'. cbn [urls after_setup_playback].
      rewrite (replay_exchange exchanges e Hnd Hin).
      apply same_reply_exchange.
      rewrite Forall_forall in Hf. now apply Hf.
    + split; reflexivity.
Qed.

Lemma json_exchanges_replay_identically_witness :
  cassette_present (sample_recorder []) = false /\
  Forall faithful [(sample_get, sample_json_response)] /\
  NoDup (map request_key [(sample_get, sample_json_response)]) /\
  let (w1, recorded) :=
    session (sample_recorder []) (live_calls [(sample_get, sample_json_response)]) in
  let (w2, replayed) :=
    session (sample_recorder (fs w1)) (live_calls [(sample_get, sample_json_response)]) in
  recorded = map exchange_reply [(sample_get, sample_json_response)] /\
  Forall2 same_reply recorded replayed /\
  sends (trace w2) = [] /\ writes (trace w2) = [].
Proof.
  assert (Hf : Forall faithful [(sample_get, sample_json_response)]).
  { constructor; [|constructor]. split; [reflexivity|]. split.
    - eexists. vm_compute. reflexivity.
    - unfold Cid.wf. simpl. nodup_literals. }
  assert (Hk : NoDup (map request_key [(sample_get, sample_json_response)])).
  { simpl. nodup_literals. }
  split; [reflexivity|]. split; [exact Hf|]. split; [exact Hk|].
  exact (json_exchanges_replay_identically "/repo/tests" "test_foo" None None []
           [(sample_get, sample_json_response)] eq_refl Hf Hk).
Defined.


(* ================================================================== *)
(** * Part III. Further properties of the recorder *)
(* ================================================================== *)

(** ** [setup_playback] and [setup] in general *)

Lemma set_urls_app_nil (s : state) : set_urls (urls s ++ []) s = s.
Proof. rewrite List.app_nil_r. apply set_urls_same. Qed.

Lemma rewind_cassette_spec (s : state) :
  rewind_cassette s
  = (set_urls (urls s ++ fst (playback_standins (cassette s))) s,
     snd (playback_standins (cassette s))).
Proof.
  unfold rewind_cassette, playback_standins. unfold bind at 1, get.
  unfold bind at 1, lift.
  destruct (py_iter (cassette s)) as [tracks|e].
  - apply for_each_register.
  - simpl. now rewrite set_urls_app_nil.
Qed.

Lemma setup_playback_spec (s : state) :
  setup_playback s
  = match loaded_cassette s with
    | Ok c => (after_rewind c s, snd (playback_standins c))
    | Raise e => (after_load_failure s, Raise e)
    end.
Proof.
  unfold setup_playback, _insert_cassette, loaded_cassette, load_events,
    after_rewind, after_load_failure, load_events.
  unfold bind at 1. unfold log_info, modify.
  unfold bind at 1. unfold bind at 1. unfold get.
  change (has_recorded (emit (EvLog "playing back ...") s)) with (has_recorded s).
  destruct (has_recorded s) eqn:Hr; cbn [negb].
  - unfold ret. unfold bind at 1. unfold responses_reset, modify.
    rewrite rewind_cassette_spec. unfold_state. rewrite Hr.
    now rewrite <- ?List.app_assoc.
  - unfold read_text. unfold bind at 1. unfold bind at 1. unfold get.
    unfold bind at 1. unfold modify.
    change (fs (emit (EvLog "playing back ...") s)) with (fs s).
    change (_cass_file (emit (EvLog "playing back ...") s)) with (_cass_file s).
    destruct (dict_get (_cass_file s) (fs s)) as [data|].
    + unfold ret. destruct (loads data) as [c|].
      * unfold modify. unfold bind at 1. unfold responses_reset, modify.
        rewrite rewind_cassette_spec. unfold_state. rewrite Hr.
        now rewrite <- ?List.app_assoc.
      * unfold raise. unfold_state. rewrite Hr. now rewrite <- ?List.app_assoc.
    + unfold raise. unfold_state. rewrite Hr. now rewrite <- ?List.app_assoc.
Qed.

Lemma setup_spec (s : state) :
  setup s
  = if cassette_present s then setup_playback (after_existence_check s)
    else (after_setup_recording s, Ok tt).
Proof.
  unfold cassette_present.
  destruct (dict_get (_cass_file s) (fs s)) as [data|] eqn:E.
  - unfold setup. unfold bind at 1. unfold responses_start, modify.
    unfold bind at 1. unfold has_cassette. unfold bind at 1, get.
    unfold bind at 1. unfold modify, ret.
    assert (E1 : dict_get (_cass_file (emit EvStart (set_started true s)))
                   (fs (emit EvStart (set_started true s))) = Some data) by exact E.
    rewrite E1. change (negb true) with false. cbv iota.
    f_equal. unfold after_existence_check. unfold_state.
    now rewrite <- ?List.app_assoc.
  - now apply setup_without_cassette.
Qed.

(** ** X1: where the cassette file lives *)

Lemma occurs_app (c : ascii) (a b : string) :
  occurs c (a ++ b) = occurs c a || occurs c b.
Proof.
  induction a as [|x a IH]; simpl; [reflexivity|].
  now rewrite IH, orb_assoc.
Qed.

Lemma occurs_replace_char (a b : ascii) (n : string) :
  Ascii.eqb b a = false -> occurs a (replace_char a b n) = false.
Proof.
  intros Hab. induction n as [|x n IH]; simpl; [reflexivity|].
  rewrite IH, orb_false_r.
  destruct (Ascii.eqb x a) eqn:E; [exact Hab | exact E].
Qed.

Lemma replace_char_length (a b : ascii) (n : string) :
  String.length (replace_char a b n) = String.length n.
Proof. induction n as [|x n IH]; simpl; [reflexivity | now rewrite IH]. Qed.

(** X1.  The cassette file is [<basedir>/cassettes/<name>.cassette] where
    [<name>] is the cassette name with every path separator turned into an
    underscore: the file name holds no separator and is as long as the
    cassette name plus the suffix, so the file sits directly in the cassettes
    directory.  Two recorders with the same base directory whose cassette names
    agree once separators are underscores use the same file. *)
Theorem cassette_file_location :
  forall (s : state),
    _cass_file s = (basedir s ++ "/cassettes/" ++ _test_name s)%string /\
    _test_name s = (replace_char sep "_" (cassette_name s) ++ ".cassette")%string /\
    occurs sep (_test_name s) = false /\
    String.length (_test_name s) = String.length (cassette_name s) + 9 /\
    (forall s',
        basedir s' = basedir s ->
        replace_char sep "_" (cassette_name s') = replace_char sep "_" (cassette_name s) ->
        _cass_file s' = _cass_file s).
Proof.
  intros s. repeat split.
  - unfold _cass_file, _cass_dir, path_join. rewrite str_app_assoc. reflexivity.
  - unfold _test_name. rewrite occurs_app, occurs_replace_char; reflexivity.
  - unfold _test_name. rewrite str_length_app, replace_char_length. reflexivity.
  - intros s' Hb Hn. unfold _cass_file, _cass_dir, _test_name. now rewrite Hb, Hn.
Qed.

Lemma cassette_file_location_witness :
  _cass_file (init "/repo/tests" "pkg/test_a" None None [])
    = "/repo/tests/cassettes/pkg_test_a.cassette" /\
  _cass_file (init "/repo/tests" "pkg_test_a" None None [])
    = _cass_file (init "/repo/tests" "pkg/test_a" None None []).
Proof.
  split; [reflexivity|].
  apply (cassette_file_location (init "/repo/tests" "pkg/test_a" None None []));
    reflexivity.
Defined.

(** ** X2: the ways [setup] can fail *)

Lemma getitem_error (obj : json) (key : string) (e : exn) :
  getitem obj key = Raise e -> shape_error e = true.
Proof.
  unfold getitem. destruct obj; try (now intros [= <-]).
  destruct (dict_get key m); [discriminate | now intros [= <-]].
Qed.

Lemma standin_of_track_error (track : json) (e : exn) :
  standin_of_track track = Raise e -> shape_error e = true.
Proof.
  unfold standin_of_track.
  destruct (getitem track "request") as [req|e1] eqn:E1;
    [|intros [= <-]; eapply getitem_error; exact E1].
  destruct (getitem req "method") as [meth|e2] eqn:E2;
    [|intros [= <-]; eapply getitem_error; exact E2].
  destruct (getitem req "url") as [u|e3] eqn:E3;
    [|intros [= <-]; eapply getitem_error; exact E3].
  destruct (getitem track "response") as [resp|e4] eqn:E4;
    [discriminate | intros [= <-]; eapply getitem_error; exact E4].
Qed.

Lemma standins_of_tracks_error (tracks : list json) (e : exn) :
  snd (standins_of_tracks tracks) = Raise e -> shape_error e = true.
Proof.
  induction tracks as [|t tracks IH]; simpl; [discriminate|].
  destruct (standin_of_track t) as [m|e1] eqn:E1.
  - destruct (standins_of_tracks tracks) as [ms r]. exact IH.
  - simpl. intros [= <-]. eapply standin_of_track_error; exact E1.
Qed.

Lemma playback_standins_error (c : json) (e : exn) :
  snd (playback_standins c) = Raise e -> shape_error e = true.
Proof.
  unfold playback_standins. destruct (py_iter c) as [tracks|e1] eqn:E1.
  - apply standins_of_tracks_error.
  - simpl. intros [= <-]. destruct c; try discriminate E1; now injection E1 as <-.
Qed.

Lemma playback_standins_play (c : json) :
  forallb is_play (fst (playback_standins c)) = true.
Proof.
  unfold playback_standins. destruct (py_iter c); [apply standins_of_tracks_play | reflexivity].
Qed.

Lemma loaded_cassette_after_check (s : state) :
  loaded_cassette (after_existence_check s) = loaded_cassette s.
Proof. reflexivity. Qed.

(** X2.  [setup] can fail in two ways only: with the decoding error, when the
    cassette file exists and a recorder that has recorded nothing finds it is
    not JSON; or with a KeyError or TypeError, when the loaded cassette does
    not have the shape of a list of tracks.  In particular it never fails
    because the file is missing: the file is read only after it was seen to
    exist. *)
Theorem setup_failure_kinds :
  forall (s : state) (e : exn),
    snd (setup s) = Raise e ->
    cassette_present s = true /\
    ((e = ValueError /\ has_recorded s = false) \/ shape_error e = true).
Proof.
  intros s e. rewrite setup_spec. unfold cassette_present.
  destruct (dict_get (_cass_file s) (fs s)) as [data|] eqn:E; [|discriminate].
  rewrite setup_playback_spec, loaded_cassette_after_check. unfold loaded_cassette.
  rewrite E. intros H. split; [reflexivity|].
  destruct (has_recorded s).
  - right. eapply playback_standins_error. exact H.
  - destruct (loads data) as [c|].
    + right. eapply playback_standins_error. exact H.
    + left. simpl in H. now injection H as <-.
Qed.

Lemma setup_failure_kinds_witness :
  snd (setup (sample_recorder [(sample_cassette_path, "[1]")])) = Raise TypeError /\
  cassette_present (sample_recorder [(sample_cassette_path, "[1]")]) = true /\
  ((TypeError = ValueError /\
    has_recorded (sample_recorder [(sample_cassette_path, "[1]")]) = false)
   \/ shape_error TypeError = true).
Proof.
  split; [reflexivity|].
  apply (setup_failure_kinds (sample_recorder [(sample_cassette_path, "[1]")]) TypeError).
  reflexivity.
Defined.

(** ** X3: [setup] replaces the stand-ins *)

(** X3.  When [setup] succeeds, the stand-ins it leaves do not depend on the
    stand-ins registered before: both modes reset the interception layer
    before registering, so stand-ins never pile up over repeated set-ups.
    What is left is either the single recording stand-in or playback
    stand-ins only. *)
Theorem setup_replaces_standins :
  forall (s : state) (u : list standin),
    snd (setup s) = Ok tt ->
    snd (setup (set_urls u s)) = Ok tt /\
    urls (fst (setup (set_urls u s))) = urls (fst (setup s)) /\
    (urls (fst (setup s)) = [recording_standin] \/
     forallb is_play (urls (fst (setup s))) = true).
Proof.
  intros s u. rewrite !setup_spec.
  change (cassette_present (set_urls u s)) with (cassette_present s).
  destruct (cassette_present s).
  - rewrite !setup_playback_spec, !loaded_cassette_after_check.
    change (loaded_cassette (set_urls u s)) with (loaded_cassette s).
    destruct (loaded_cassette s) as [c|e]; [|discriminate].
    simpl. intros H. repeat split; [exact H|].
    right. apply playback_standins_play.
  - simpl. intros _. repeat split. now left.
Qed.

Lemma setup_replaces_standins_witness :
  snd (setup (sample_recorder sample_disk)) = Ok tt /\
  urls (fst (setup (set_urls [recording_standin; recording_standin]
                      (sample_recorder sample_disk))))
  = urls (fst (setup (sample_recorder sample_disk))).
Proof.
  split; [reflexivity|].
  apply (setup_replaces_standins (sample_recorder sample_disk)
           [recording_standin; recording_standin] eq_refl).
Defined.

(** ** X4: what [setup] leaves alone, and cleaning up after it *)

(** X4.  Whatever the disk holds and whether or not it raises, [setup]
    leaves interception started, writes nothing, and changes neither the
    has-recorded flag nor the disk.  A [teardown] after it, also after a
    failed [setup], stops interception and clears every stand-in. *)
Theorem setup_starts_and_preserves :
  forall (s : state),
    let s1 := fst (setup s) in
    let s2 := fst (teardown s1) in
    started s1 = true /\
    has_recorded s1 = has_recorded s /\
    fs s1 = fs s /\
    writes (trace s1) = writes (trace s) /\
    started s2 = false /\ urls s2 = [].
Proof.
  intros s s1 s2.
  assert (H : started s1 = true /\ has_recorded s1 = has_recorded s /\ fs s1 = fs s).
  { unfold s1. rewrite setup_spec. destruct (cassette_present s).
    - rewrite setup_playback_spec.
      destruct (loaded_cassette (after_existence_check s)); repeat split.
    - repeat split. }
  destruct H as (H1 & H2 & H3). repeat split; auto.
  - apply writes_setup.
  - unfold s2. now rewrite teardown_spec.
  - unfold s2. now rewrite teardown_spec.
Qed.

(** ** X5: a recorder that has recorded replays from memory *)

Lemma reads_app (a b : list event) : reads (a ++ b) = (reads a ++ reads b)%list.
Proof. apply filter_app. Qed.

(** X5.  When the recorder has already recorded and its cassette file
    exists, [setup] does not read the file: it keeps the cassette it has in
    memory and registers the playback stand-ins of that cassette, whatever the
    file holds. *)
Theorem setup_replays_from_memory :
  forall (s : state),
    has_recorded s = true ->
    cassette_present s = true ->
    cassette (fst (setup s)) = cassette s /\
    reads (trace (fst (setup s))) = reads (trace s) /\
    urls (fst (setup s)) = fst (playback_standins (cassette s)) /\
    snd (setup s) = snd (playback_standins (cassette s)) /\
    forallb is_play (urls (fst (setup s))) = true.
Proof.
  intros s Hr Hp. rewrite setup_spec, Hp, setup_playback_spec.
  rewrite loaded_cassette_after_check. unfold loaded_cassette. rewrite Hr.
  cbn [fst snd after_rewind cassette urls trace].
  unfold load_events. cbn [has_recorded after_existence_check]. rewrite Hr.
  repeat split.
  - cbn [trace]. rewrite !reads_app. simpl. rewrite !reads_app. simpl.
    now rewrite !List.app_nil_r.
  - apply playback_standins_play.
Qed.

Lemma setup_replays_from_memory_witness :
  has_recorded sample_recorded_world = true /\
  cassette_present sample_recorded_world = true /\
  cassette (fst (setup sample_recorded_world)) = sample_cassette /\
  reads (trace (fst (setup sample_recorded_world))) = [].
Proof.
  split; [reflexivity|]. split; [reflexivity|].
  pose proof (setup_replays_from_memory sample_recorded_world eq_refl eq_refl)
    as (H1 & H2 & _).
  split; [exact H1 | exact H2].
Defined.

(** ** X6, X7, X8: [rewind_cassette] *)

Lemma standin_of_track_registered (t : json) (m : standin) :
  standin_of_track t = Ok m -> registered_for t m.
Proof.
  unfold standin_of_track, registered_for.
  destruct (getitem t "request") as [req|]; [|discriminate].
  destruct (getitem req "method") as [meth|] eqn:E2; [|discriminate].
  destruct (getitem req "url") as [u|] eqn:E3; [|discriminate].
  destruct (getitem t "response") as [resp|]; [|discriminate].
  intros [= <-]. exists req, meth, u, resp. repeat split; assumption.
Qed.

Lemma standins_of_tracks_complete (tracks : list json) :
  snd (standins_of_tracks tracks) = Ok tt ->
  Forall2 registered_for tracks (fst (standins_of_tracks tracks)).
Proof.
  induction tracks as [|t tracks IH]; simpl; [constructor|].
  destruct (standin_of_track t) as [m|e] eqn:E; [|discriminate].
  destruct (standins_of_tracks tracks) as [ms r]. simpl in *.
  intros H. constructor; [now apply standin_of_track_registered | now apply IH].
Qed.

Lemma registered_match_querystring (tracks : list json) (new : list standin) :
  Forall2 registered_for tracks new -> forallb si_match_querystring new = true.
Proof.
  induction 1 as [|t m ts ms Hm _ IH]; [reflexivity|].
  destruct Hm as (? & ? & ? & ? & _ & _ & _ & _ & ->). simpl. exact IH.
Qed.

(** X6.  When [rewind_cassette] succeeds on a list of tracks, it has appended
    to the registered stand-ins exactly one stand-in per track, in cassette
    order, each keyed by the method and URL of its track's request (query
    string included) and bound to the track's response.  It does not clear
    what was registered before, and touches nothing else. *)
Theorem rewind_registers_in_order :
  forall (s : state) (tracks : list json),
    cassette s = JArr tracks ->
    snd (rewind_cassette s) = Ok tt ->
    exists new,
      urls (fst (rewind_cassette s)) = (urls s ++ new)%list /\
      Forall2 registered_for tracks new /\
      forallb si_match_querystring new = true /\
      fst (rewind_cassette s) = set_urls (urls s ++ new) s.
Proof.
  intros s tracks Hc. rewrite rewind_cassette_spec. unfold playback_standins.
  rewrite Hc. cbn [py_iter fst snd]. intros H.
  exists (fst (standins_of_tracks tracks)). repeat split.
  - now apply standins_of_tracks_complete.
  - eapply registered_match_querystring. now apply standins_of_tracks_complete.
Qed.

Lemma rewind_registers_in_order_witness :
  cassette (set_cassette sample_cassette sample_recording_world) = sample_cassette /\
  exists new,
    urls (fst (rewind_cassette (set_cassette sample_cassette sample_recording_world)))
      = ([recording_standin] ++ new)%list /\
    length new = 1.
Proof.
  split; [reflexivity|].
  destruct (rewind_registers_in_order
              (set_cassette sample_cassette sample_recording_world) _ eq_refl eq_refl)
    as (new & H & F & _).
  exists new. split; [exact H|].
  apply Forall2_length in F. symmetry. exact F.
Defined.

Lemma standins_of_tracks_prefix (good rest : list json) (bad : json) (e : exn) :
  snd (standins_of_tracks good) = Ok tt ->
  standin_of_track bad = Raise e ->
  standins_of_tracks (good ++ bad :: rest) = (fst (standins_of_tracks good), Raise e).
Proof.
  intros Hg Hb. induction good as [|t good IH]; simpl in *.
  - now rewrite Hb.
  - destruct (standin_of_track t) as [m|]; [|discriminate].
    destruct (standins_of_tracks good) as [ms r]. simpl in *.
    now rewrite (IH Hg).
Qed.

Lemma registered_standin_of_track (t : json) (m : standin) :
  registered_for t m -> standin_of_track t = Ok m.
Proof.
  intros (req & meth & u & resp & H1 & H2 & H3 & H4 & ->).
  unfold standin_of_track. now rewrite H1, H2, H3, H4.
Qed.

Lemma well_shaped_tracks (good : list json) :
  Forall (fun t => exists m, registered_for t m) good ->
  snd (standins_of_tracks good) = Ok tt.
Proof.
  induction 1 as [|t good (m & Hm) _ IH]; simpl; [reflexivity|].
  rewrite (registered_standin_of_track t m Hm).
  destruct (standins_of_tracks good) as [ms r]. exact IH.
Qed.

(** X7.  When a track of the cassette does not have the shape of a track (no
    request, no method or URL in the request, or no response),
    [rewind_cassette] raises a KeyError or TypeError; the stand-ins of the
    tracks before the first such track stay registered, one per track, and
    none is registered for the tracks after it. *)
Theorem rewind_stops_at_malformed_track :
  forall (s : state) (good rest : list json) (bad : json),
    cassette s = JArr (good ++ bad :: rest) ->
    Forall (fun t => exists m, registered_for t m) good ->
    (forall m, ~ registered_for bad m) ->
    exists new e,
      rewind_cassette s = (set_urls (urls s ++ new) s, Raise e) /\
      Forall2 registered_for good new /\
      shape_error e = true.
Proof.
  intros s good rest bad Hc Hgood Hbad.
  pose proof (well_shaped_tracks good Hgood) as Hg.
  destruct (standin_of_track bad) as [m|e] eqn:Hb.
  { exfalso. apply (Hbad m). now apply standin_of_track_registered. }
  exists (fst (standins_of_tracks good)), e.
  rewrite rewind_cassette_spec. unfold playback_standins. rewrite Hc.
  cbn [py_iter]. rewrite (standins_of_tracks_prefix good rest bad e Hg Hb).
  repeat split.
  - now apply standins_of_tracks_complete.
  - eapply standin_of_track_error. exact Hb.
Qed.

Lemma rewind_stops_at_malformed_track_witness :
  exists new e,
    rewind_cassette
      (set_cassette (JArr [make_track (JStr "GET") (JStr "http://a/") JNull;
                           JObj [("request", JObj [("method", JStr "GET")])];
                           make_track (JStr "GET") (JStr "http://b/") JNull])
         (sample_recorder []))
    = (set_urls new
         (set_cassette (JArr [make_track (JStr "GET") (JStr "http://a/") JNull;
                              JObj [("request", JObj [("method", JStr "GET")])];
                              make_track (JStr "GET") (JStr "http://b/") JNull])
            (sample_recorder [])),
       Raise e) /\
    length new = 1 /\ shape_error e = true.
Proof.
  assert (Hgood : Forall (fun t => exists m, registered_for t m)
                    [make_track (JStr "GET") (JStr "http://a/") JNull]).
  { constructor; [|constructor]. eexists. apply standin_of_track_registered. reflexivity. }
  assert (Hbad : forall m,
             ~ registered_for (JObj [("request", JObj [("method", JStr "GET")])]) m).
  { intros m Hm. apply registered_standin_of_track in Hm. discriminate Hm. }
  destruct (rewind_stops_at_malformed_track
              (set_cassette (JArr [make_track (JStr "GET") (JStr "http://a/") JNull;
                                   JObj [("request", JObj [("method", JStr "GET")])];
                                   make_track (JStr "GET") (JStr "http://b/") JNull])
                 (sample_recorder []))
              [make_track (JStr "GET") (JStr "http://a/") JNull]
              [make_track (JStr "GET") (JStr "http://b/") JNull]
              (JObj [("request", JObj [("method", JStr "GET")])])
              eq_refl Hgood Hbad) as (new & e & H & F & He).
  exists new, e. split; [exact H|]. split; [|exact He].
  apply Forall2_length in F. symmetry. exact F.
Defined.

(** X8.  A cassette that is not a list: the empty object and the empty
    string are iterated as empty cassettes, so [rewind_cassette] succeeds and
    registers nothing; every other value that is not a list (null, a boolean,
    a number, a non-empty object or string) makes it raise TypeError, again
    registering nothing. *)
Theorem rewind_cassette_not_a_list :
  forall (s : state),
    match cassette s with
    | JArr _ => True
    | JObj [] | JStr EmptyString => rewind_cassette s = (s, Ok tt)
    | _ => rewind_cassette s = (s, Raise TypeError)
    end.
Proof.
  intros s. pose proof (rewind_cassette_spec s) as H.
  unfold playback_standins in H.
  destruct (cassette s) as [ | b | z | t | l | m ]; simpl in H;
    try (rewrite set_urls_app_nil in H; exact H).
  - destruct t; simpl in H; rewrite set_urls_app_nil in H; exact H.
  - exact I.
  - destruct m as [|kv m]; simpl in H; rewrite set_urls_app_nil in H; exact H.
Qed.

(** ** X9: what a call can get during playback *)

Lemma play_error (resp : json) (req : prepared_request) (e : exn) :
  play resp req = Raise e -> shape_error e = true.
Proof.
  unfold play.
  destruct (getitem resp "status_code") as [st|e1] eqn:E1;
    [|intros [= <-]; eapply getitem_error; exact E1].
  destruct (getitem resp "headers") as [h|e2] eqn:E2;
    [|intros [= <-]; eapply getitem_error; exact E2].
  destruct (getitem resp "body") as [b|e3] eqn:E3;
    [discriminate | intros [= <-]; eapply getitem_error; exact E3].
Qed.

(** X9.  In a playback world a call leaves the world as it is and has one of
    three outcomes: the triple that [play] computes from the stored response
    of a registered stand-in; the refusal of the interception layer, when no
    stand-in matches; or a KeyError or TypeError, when the stored response of
    the matching stand-in lacks a field.  Such a malformed response is only
    noticed here, when it is about to be replayed, and never causes a real
    call. *)
Theorem playback_call_outcomes :
  forall (s : state) (req : prepared_request) (ans : answer),
    playback_world s ->
    fst (http_call req ans s) = s /\
    match snd (http_call req ans s) with
    | Ok (Stubbed x) =>
        exists m resp, In m (urls s) /\ find_match (urls s) req = Some m /\
                       si_callback m = CbPlay resp /\ play resp req = Ok x
    | Ok (Live _) => False
    | Raise e =>
        (e = refused req /\ find_match (urls s) req = None) \/
        (shape_error e = true /\
         exists m resp, find_match (urls s) req = Some m /\
                        si_callback m = CbPlay resp /\ play resp req = Raise e)
    end.
Proof.
  intros s req ans Hw. rewrite (http_call_playback req ans s Hw).
  split; [reflexivity|]. cbn [snd]. unfold replay.
  destruct Hw as [_ Hp].
  destruct (find_match (urls s) req) as [m|] eqn:Em; [|now left].
  pose proof (find_match_in _ _ _ Em) as Hin.
  rewrite forallb_forall in Hp. specialize (Hp m Hin). unfold is_play in Hp.
  destruct (si_callback m) as [|resp] eqn:Ec; [discriminate|].
  destruct (play resp req) as [x|e] eqn:Ep.
  - exists m, resp. repeat split; assumption.
  - right. split; [eapply play_error; exact Ep|].
    exists m, resp. repeat split; assumption.
Qed.

Lemma playback_call_outcomes_witness :
  playback_world (fst (setup (sample_recorder sample_disk))) /\
  fst (http_call sample_post (Ok sample_text_response)
         (fst (setup (sample_recorder sample_disk))))
  = fst (setup (sample_recorder sample_disk)).
Proof.
  assert (Hw : playback_world (fst (setup (sample_recorder sample_disk)))).
  { split; vm_compute; reflexivity. }
  split; [exact Hw|].
  exact (proj1 (playback_call_outcomes (fst (setup (sample_recorder sample_disk)))
                  sample_post (Ok sample_text_response) Hw)).
Defined.

(** ** X10: the first track with the key of a request answers it *)



(** ** X11: tearing down twice *)

Lemma dict_set_twice {A} (k : string) (v : A) (m : list (string * A)) :
  dict_set k v (dict_set k v m) = dict_set k v m.
Proof.
  induction m as [|[k' v'] m IH]; simpl.
  - now rewrite String.eqb_refl.
  - destruct (String.eqb k k') eqn:E; simpl.
    + now rewrite String.eqb_refl.
    + now rewrite E, IH.
Qed.

(** X11.  [teardown] clears neither the has-recorded flag nor the cassette:
    a second [teardown] writes the same content to the same file again (when
    something was recorded) and leaves the disk as the first one left it. *)
Theorem teardown_twice :
  forall (s : state),
    let s1 := fst (teardown s) in
    let s2 := fst (teardown s1) in
    has_recorded s1 = has_recorded s /\
    cassette s1 = cassette s /\
    fs s2 = fs s1 /\
    writes (trace s2)
    = (writes (trace s1) ++
       if has_recorded s then [EvWrite (_cass_file s) (dumps (cassette s))] else [])%list.
Proof.
  intros s s1 s2. unfold s2, s1. rewrite !teardown_spec. cbn [fst].
  repeat split.
  - cbn [fs after_teardown has_recorded cassette].
    change (_cass_file (after_teardown s)) with (_cass_file s).
    destruct (has_recorded s); [apply dict_set_twice | reflexivity].
  - cbn [trace after_teardown has_recorded cassette].
    change (_cass_file (after_teardown s)) with (_cass_file s).
    rewrite (writes_app (trace s ++ _)). now destruct (has_recorded s).
Qed.

(** ** X12: what a recording session captures *)

Lemma run_test_captured (calls : list (prepared_request * answer)) :
  forall (s : state) (l : list json),
    started s = true -> urls s = [recording_standin] -> cassette s = JArr l ->
    exists s2,
      run_test calls s = (s2, map recording_outcome calls) /\
      cassette s2 = JArr (l ++ captured_tracks calls) /\
      has_recorded s2 = (has_recorded s || negb (Nat.eqb (length (captured_tracks calls)) 0)) /\
      started s2 = true /\ urls s2 = [recording_standin] /\
      fs s2 = fs s /\ basedir s2 = basedir s /\ cassette_name s2 = cassette_name s.
Proof.
  induction calls as [|[req ans] calls IH]; intros s l Hs Hu Hc.
  - exists s. simpl. rewrite List.app_nil_r, orb_false_r. repeat split; auto.
  - simpl. unfold recording_outcome at 1. cbn [fst snd].
    destruct (recordable req) eqn:Hr.
    + destruct ans as [resp|e].
      * destruct (http_call_recorded req resp s l Hs Hu Hc Hr) as (hdrs & Hh & Hcall).
        rewrite strip_gzip_ok in Hh. injection Hh as <-.
        fold (cleaned_headers resp) in Hcall. rewrite Hcall.
        set (s1 := after_recording req (recorded_track req resp (cleaned_headers resp)) l s).
        destruct (IH s1 (l ++ [recorded_track req resp (cleaned_headers resp)])%list
                    eq_refl Hu eq_refl) as (s2 & H1 & H2 & H3 & H4 & H5 & H6 & H7 & H8).
        exists s2. rewrite H1. repeat split; auto.
        -- rewrite H2, <- List.app_assoc. reflexivity.
        -- rewrite H3. simpl. now rewrite orb_true_r.
      * rewrite (http_call_record_failed req e s Hs Hu Hr).
        destruct (IH (after_failed_recording req s) l eq_refl Hu Hc)
          as (s2 & H1 & H2 & H3 & H4 & H5 & H6 & H7 & H8).
        exists s2. rewrite H1. repeat split; auto.
    + rewrite (http_call_unrecordable req ans s); [| now repeat split; eauto | exact Hr].
      destruct (IH s l Hs Hu Hc) as (s2 & H1 & H2 & H3 & H4 & H5 & H6 & H7 & H8).
      exists s2. rewrite H1. destruct ans; repeat split; auto.
Qed.

(** X12.  In a recording session of a new recorder (no cassette file), the
    cassette after the test body holds, in call order, exactly one track for
    each GET call to an http URL whose real call succeeded.  A call whose real
    call raised gets that exception and leaves no track; a call with another
    method or URL is refused and leaves no track; neither disturbs the
    recording of the calls after it. *)
Theorem recording_session_captures :
  forall (dirpath node_name : string) (basedir_arg name_arg : option string)
         (disk : list (string * string)) (calls : list (prepared_request * answer)),
    let s0 := init dirpath node_name basedir_arg name_arg disk in
    cassette_present s0 = false ->
    let s1 := fst (setup s0) in
    snd (run_test calls s1) = map recording_outcome calls /\
    cassette (fst (run_test calls s1)) = JArr (captured_tracks calls) /\
    recording_world (fst (run_test calls s1)).
Proof.
  intros dirpath node_name basedir_arg name_arg disk calls s0 Hp s1.
  pose proof (setup_world s0 eq_refl eq_refl) as Hw. rewrite Hp in Hw.
  unfold s1. rewrite Hw. cbn [fst].
  destruct (run_test_captured calls (after_setup_recording s0) []
              eq_refl eq_refl eq_refl) as (s2 & H1 & H2 & H3 & H4 & H5 & _).
  rewrite H1. cbn [fst snd]. repeat split; auto.
  exists (captured_tracks calls). exact H2.
Qed.

Lemma recording_session_captures_witness :
  cassette_present (sample_recorder []) = false /\
  cassette (fst (run_test sample_calls (fst (setup (sample_recorder [])))))
  = JArr [recorded_track sample_get sample_json_response
            [("Content-Type", "application/json")];
          recorded_track sample_motd sample_text_response
            [("Content-Type", "text/plain")]].
Proof.
  split; [reflexivity|].
  exact (proj1 (proj2 (recording_session_captures "/repo/tests" "test_foo" None None []
                         sample_calls eq_refl))).
Defined.

(** ** X13: what is written is what the next session loads *)





(** ** X14: a recorded track can be replayed *)

(** X14.  The track the recording callback builds always has the shape
    [rewind_cassette] and [play] need: its stand-in is keyed by the method and
    URL of the recorded request, the recorded request itself matches that
    stand-in, and [play] on the recorded response never raises and returns the
    recorded status code. *)
Theorem recorded_track_is_replayable :
  forall (req req' : prepared_request) (resp : response) (hdrs : Cid.t),
    let m := playback_standin (JStr (method req)) (JStr (url req))
               (recorded_response resp hdrs) in
    registered_for (recorded_track req resp hdrs) m /\
    find_match [m] req = Some m /\
    exists r, play (recorded_response resp hdrs) req' = Ok r /\
              sr_status r = JInt (status_code resp) /\
              sr_headers r = HValue (dict_of_headers hdrs).
Proof.
  intros req req' resp hdrs m. repeat split.
  - apply standin_of_track_registered. reflexivity.
  - unfold m, playback_standin. simpl.
    unfold method_matches, has_url_match, has_strict_url_match. simpl.
    now rewrite !String.eqb_refl.
  - eexists. repeat split.
Qed.

(** ** X15: other content encodings are kept *)

(** X15.  When the live response has no Content-Encoding header, or one
    whose value does not contain the lower-case text [gzip], the recording
    callback leaves the headers alone: the caller gets all of them and the
    track stores all of them. *)
Theorem other_encodings_are_kept :
  forall (s : state) (l : list json) (req : prepared_request) (resp : response),
    cassette s = JArr l ->
    contains "gzip" (Cid.get "Content-Encoding" "" (headers resp)) = false ->
    snd (record req (Ok resp) s)
      = Ok {| sr_status := JInt (status_code resp);
              sr_headers := HCaseInsensitive (headers resp);
              sr_body := snd (decode_body resp) |} /\
    cassette (fst (record req (Ok resp) s))
      = JArr (l ++ [recorded_track req resp (headers resp)]) /\
    getitem (recorded_response resp (headers resp)) "headers"
      = Ok (dict_of_headers (headers resp)).
Proof.
  intros s l req resp Hc Hg.
  assert (Hs : strip_gzip (headers resp) = Ok (headers resp)).
  { rewrite strip_gzip_ok. now rewrite Hg. }
  rewrite (record_success req resp s l _ Hc Hs). repeat split.
Qed.

Lemma other_encodings_are_kept_witness :
  cassette sample_recording_world = JArr [] /\
  contains "gzip" (Cid.get "Content-Encoding" "" (headers sample_deflate_response)) = false /\
  snd (record sample_motd (Ok sample_deflate_response) sample_recording_world)
    = Ok {| sr_status := JInt 200;
            sr_headers := HCaseInsensitive
                            [("Content-Encoding", "deflate"); ("Content-Type", "text/plain")];
            sr_body := "hello" |}.
Proof.
  split; [reflexivity|]. split; [reflexivity|].
  exact (proj1 (other_encodings_are_kept sample_recording_world [] sample_motd
                  sample_deflate_response eq_refl eq_refl)).
Defined.

(** ** X16: recording is transparent up to JSON equality *)



(** ** X17: [teardown] writes its own file only *)



